(** * MFRC522 driver for the Calliope Mini V3: a shallow embedding

    The driver ([src/main.ts], namespace [MFRC522]; the second source file
    carries the same functions in a namespace [RFID] under the names
    [reset], [request], [anticoll] and [getCardUID]) talks to the reader chip
    through four primitives of the MakeCode runtime:
    [pins.digitalWritePin], [pins.spiWrite], [pins.spiRead] and
    [basic.pause].  The embedding keeps these four as the operations of a
    transport interface, logs every call in an event trace, and writes the
    driver functions in a small state monad over the transport. *)

From Stdlib Require Import ZArith List String Ascii Bool Lia.
Import ListNotations.
Open Scope Z_scope.

(** ** Numbers

    The driver only handles integers.  They are modelled as [Z]; the
    bitwise operators of the source language first wrap their operands to
    32 bits, two's complement, which is written out here. *)

Definition to_int32 (z : Z) : Z := (z + 2 ^ 31) mod 2 ^ 32 - 2 ^ 31.

Definition js_shl (a n : Z) : Z :=
  to_int32 (Z.shiftl (to_int32 a) (Z.land n 31)).
Definition js_and (a b : Z) : Z := Z.land (to_int32 a) (to_int32 b).
Definition js_or (a b : Z) : Z := Z.lor (to_int32 a) (to_int32 b).
Definition js_not (a : Z) : Z := Z.lnot (to_int32 a).

(** Conversion unfolds the wrap-around last: the frame bytes and masks are
    compared as written before they are computed. *)
#[global] Strategy 100 [to_int32 js_shl js_and js_or js_not].

Definition is_int32 (z : Z) : Prop := - 2 ^ 31 <= z < 2 ^ 31.
Definition is_byte (z : Z) : Prop := 0 <= z < 256.

(** ** Strings: [Number.prototype.toString(16)], [toUpperCase] *)

Definition hex_char (d : Z) : ascii :=
  nth (Z.to_nat d) (list_ascii_of_string "0123456789abcdef") "0"%char.

Fixpoint hex_digits (fuel : nat) (n : Z) (acc : string) : string :=
  match fuel with
  | O => acc
  | S fuel' =>
      let acc' := String (hex_char (n mod 16)) acc in
      if n / 16 =? 0 then acc' else hex_digits fuel' (n / 16) acc'
  end.

(** an integer of [k] bits has at most [k] hexadecimal digits *)
Definition hex_fuel (n : Z) : nat := S (Z.to_nat (Z.log2 n)).

Definition toString16 (n : Z) : string :=
  if n <? 0 then String "-"%char (hex_digits (hex_fuel (- n)) (- n) EmptyString)
  else hex_digits (hex_fuel n) n EmptyString.

Definition upper_char (c : ascii) : ascii :=
  let n := nat_of_ascii c in
  if (97 <=? n)%nat && (n <=? 122)%nat then ascii_of_nat (n - 32) else c.

Fixpoint toUpperCase (s : string) : string :=
  match s with
  | EmptyString => EmptyString
  | String c s' => String (upper_char c) (toUpperCase s')
  end.

(** ** Pins, bus events and the transport *)

Inductive DigitalPin : Type := P3 | C4 | C13 | C14 | C15.

Definition NSS : DigitalPin := P3.
Definition RST : DigitalPin := C4.
Definition MOSI : DigitalPin := C14.
Definition MISO : DigitalPin := C15.
Definition SCK : DigitalPin := C13.

(** One event per call of a runtime primitive, in program order. *)
Inductive Event : Type :=
| EvPin (p : DigitalPin) (level : Z)      (* pins.digitalWritePin(p, level) *)
| EvSpiWrite (v : Z)                      (* pins.spiWrite(v) *)
| EvSpiRead (arg : Z) (resp : Z)          (* pins.spiRead(arg), returning resp *)
| EvPause (ms : Z).                       (* basic.pause(ms) *)

(** What is at the other end of the wires: any state machine reacting to
    the four primitives.  Only [spiRead] hands a value back to the driver
    (the value [pins.spiWrite] returns is dropped by every caller). *)
Class Transport (C : Type) : Type := {
  on_pin : DigitalPin -> Z -> C -> C;
  on_spiWrite : Z -> C -> C;
  on_spiRead : Z -> C -> Z * C;
  on_pause : Z -> C -> C
}.

(** Register addresses and command codes of the data sheet *)
Definition CommandReg : Z := 0x01.
Definition ComIEnReg : Z := 0x02.
Definition ComIrqReg : Z := 0x04.
Definition FIFODataReg : Z := 0x09.
Definition FIFOLevelReg : Z := 0x0A.
Definition ControlReg : Z := 0x0C.
Definition BitFramingReg : Z := 0x0D.
Definition ModeReg : Z := 0x11.
Definition TxControlReg : Z := 0x14.

Definition PCD_IDLE : Z := 0x00.
Definition PCD_SOFTRESET : Z := 0x0F.
Definition PCD_TRANSCEIVE : Z := 0x0C.

Definition PICC_REQIDL : Z := 0x26.
Definition PICC_ANTICOLL : Z := 0x93.

(** ** The driver monad: state passing over the transport, with a trace *)

Record Out (C A : Type) : Type := mkOut {
  res : A;               (* value returned *)
  evs : list Event;      (* primitives called, in order *)
  dev : C                (* transport state afterwards *)
}.
Arguments mkOut {C A} _ _ _.
Arguments res {C A} _.
Arguments evs {C A} _.
Arguments dev {C A} _.

Definition M (C A : Type) : Type := C -> Out C A.

Definition ret {C A} (a : A) : M C A := fun c => mkOut a [] c.

Definition bind {C A B} (m : M C A) (f : A -> M C B) : M C B :=
  fun c =>
    let o1 := m c in
    let o2 := f (res o1) (dev o1) in
    mkOut (res o2) (evs o1 ++ evs o2) (dev o2).

Notation "x <- m ;; k" := (bind m (fun x => k))
  (at level 61, m at next level, right associativity).
Notation "m ;; k" := (bind m (fun _ => k))
  (at level 61, right associativity).

Section Driver.
Context {C : Type} {T : Transport C}.

(** *** Runtime primitives *)

Definition digitalWritePin (p : DigitalPin) (level : Z) : M C unit :=
  fun c => mkOut tt [EvPin p level] (on_pin p level c).

Definition spiWrite (v : Z) : M C unit :=
  fun c => mkOut tt [EvSpiWrite v] (on_spiWrite v c).

Definition spiRead (arg : Z) : M C Z :=
  fun c =>
    let r := on_spiRead arg c in
    mkOut (fst r) [EvSpiRead arg (fst r)] (snd r).

Definition pause (ms : Z) : M C unit :=
  fun c => mkOut tt [EvPause ms] (on_pause ms c).

(** *** Low-level SPI register access *)

Definition writeReg (addr val : Z) : M C unit :=
  digitalWritePin NSS 0 ;;
  let address := js_and (js_shl addr 1) 0x7E in
  spiWrite address ;;
  spiWrite val ;;
  digitalWritePin NSS 1.

Definition readReg (addr : Z) : M C Z :=
  digitalWritePin NSS 0 ;;
  let address := js_or (js_and (js_shl addr 1) 0x7E) 0x80 in
  spiWrite address ;;
  val <- spiRead 0 ;;
  digitalWritePin NSS 1 ;;
  ret val.

Definition setBitMask (addr mask : Z) : M C unit :=
  current <- readReg addr ;;
  writeReg addr (js_or current mask).

Definition clearBitMask (addr mask : Z) : M C unit :=
  current <- readReg addr ;;
  writeReg addr (js_and current (js_not mask)).

(** *** Soft reset

    [while ((readReg(CommandReg) & (1 << 4)) !== 0) { basic.pause(1); }]
    has no bound in the source.  The loop is run with a budget of
    iterations: [Some tt] is a return of the loop, [None] says the budget
    ran out with the loop still going. *)

Fixpoint resetWait (fuel : nat) : M C (option unit) :=
  match fuel with
  | O => ret None
  | S fuel' =>
      v <- readReg CommandReg ;;
      if negb (js_and v (js_shl 1 4) =? 0)
      then pause 1 ;; resetWait fuel'
      else ret (Some tt)
  end.

Definition resetModule (fuel : nat) : M C (option unit) :=
  writeReg CommandReg PCD_SOFTRESET ;;
  pause 50 ;;
  resetWait fuel.

Definition antennaOn : M C unit :=
  value <- readReg TxControlReg ;;
  if negb (js_and value 0x03 =? 0x03)
  then setBitMask TxControlReg 0x03
  else ret tt.

(** *** Presence poll

    [do { basic.pause(1); irq = readReg(ComIrqReg); i--; }
     while (i > 0 && ((irq & 0x30) === 0));]
    The counter [i] is only decremented and compared with 0, so it is the
    structural argument: [irqPoll i] is the loop entered with counter [i].
    A do-while runs its body once whatever [i] is. *)

Fixpoint irqPoll (i : nat) : M C Z :=
  pause 1 ;;
  irq <- readReg ComIrqReg ;;
  match i with
  | S (S _ as i') =>                      (* i-- leaves i' > 0 *)
      if js_and irq 0x30 =? 0 then irqPoll i' else ret irq
  | _ => ret irq                          (* i-- leaves i <= 0 *)
  end.

Definition requestCard (reqMode : Z) : M C Z :=
  writeReg BitFramingReg 0x07 ;;
  writeReg FIFOLevelReg 0x80 ;;
  digitalWritePin NSS 0 ;;
  let addr := js_and (js_shl FIFODataReg 1) 0x7E in
  spiWrite addr ;;
  spiWrite reqMode ;;
  digitalWritePin NSS 1 ;;
  writeReg CommandReg PCD_TRANSCEIVE ;;
  setBitMask BitFramingReg 0x80 ;;
  pause 10 ;;
  clearBitMask BitFramingReg 0x80 ;;
  irq <- irqPoll 25 ;;
  length <- readReg FIFOLevelReg ;;
  if length =? 2 then ret 1 else ret 0.

(** *** Anti-collision *)

(** [for (let i = 0; i < fifoLevel; i++) uid.push(readReg(FIFODataReg))],
    [n] iterations still to run, [uid] the array so far *)
Fixpoint readFifo (n : nat) (uid : list Z) : M C (list Z) :=
  match n with
  | O => ret uid
  | S n' => b <- readReg FIFODataReg ;; readFifo n' (uid ++ [b])
  end.

(** the body of the formatting loop, for one element *)
Definition hexByte (b : Z) : string :=
  let hex := toString16 b in
  let hex := if (String.length hex <? 2)%nat then String "0"%char hex else hex in
  toUpperCase hex.

(** [for (let i = 0; i < uid.length; i++) { ...; uidStr += ... }] *)
Fixpoint formatUid (uid : list Z) (uidStr : string) : string :=
  match uid with
  | [] => uidStr
  | b :: uid' => formatUid uid' (uidStr ++ hexByte b)
  end.

Definition anticollision : M C string :=
  writeReg FIFOLevelReg 0x80 ;;
  digitalWritePin NSS 0 ;;
  let addr := js_and (js_shl FIFODataReg 1) 0x7E in
  spiWrite addr ;;
  spiWrite PICC_ANTICOLL ;;
  spiWrite 0x20 ;;
  digitalWritePin NSS 1 ;;
  writeReg CommandReg PCD_TRANSCEIVE ;;
  setBitMask BitFramingReg 0x80 ;;
  pause 10 ;;
  clearBitMask BitFramingReg 0x80 ;;
  fifoLevel <- readReg FIFOLevelReg ;;
  if negb (fifoLevel =? 5) then ret EmptyString
  else
    uid <- readFifo (Z.to_nat fifoLevel) [] ;;
    ret (formatUid uid EmptyString).

(** *** Public blocks *)

Definition getID : M C string :=
  status <- requestCard PICC_REQIDL ;;
  if status =? 1 then anticollision else ret EmptyString.

End Driver.

(** The second source file declares the same functions, with the same
    bodies, in a namespace [RFID]. *)
Module RFID.
Definition reset {C} {T : Transport C} := @resetModule C T.
Definition request {C} {T : Transport C} := @requestCard C T.
Definition anticoll {C} {T : Transport C} := @anticollision C T.
Definition getCardUID {C} {T : Transport C} := @getID C T.
End RFID.

(** ** Simulated transports

    Two test fixtures for the far end of the bus.  They are environments
    the driver is run against, not part of the driver. *)

(** A scripted chip: the [n]-th call of [pins.spiRead] is answered with
    [replies n], whatever was sent before. *)
Record Script : Type := mkScript {
  replies : nat -> Z;
  served : nat
}.

#[export] Instance Script_Transport : Transport Script := {
  on_pin _ _ s := s;
  on_spiWrite _ s := s;
  on_spiRead _ s := (replies s (served s), mkScript (replies s) (S (served s)));
  on_pause _ s := s
}.

(** the script that plays [l] and then answers [d] for ever *)
Definition script (l : list Z) (d : Z) : Script :=
  mkScript (fun n => nth n l d) O.

(** A register file behind the chip's SPI framing: chip-select low opens a
    frame, the first byte of a frame is the address byte (bit 7 set for a
    read, bits 6..1 the register), every further byte written in a write
    frame is stored in the register, and a read in a read frame returns the
    value last stored there. *)
Inductive BusMode : Type :=
| Deselected
| AwaitAddress
| Writing (a : Z)
| Reading (a : Z).

Record RegFile : Type := mkRegFile {
  regs : Z -> Z;
  mode : BusMode
}.

Definition pin_is_NSS (p : DigitalPin) : bool :=
  match p with P3 => true | _ => false end.

Definition frame_reg (b : Z) : Z := Z.land (Z.shiftr b 1) 0x3F.

Definition store (f : Z -> Z) (a v : Z) : Z -> Z :=
  fun r => if r =? a then v else f r.

#[export] Instance RegFile_Transport : Transport RegFile := {
  on_pin p level rf :=
    if pin_is_NSS p
    then mkRegFile (regs rf) (if level =? 0 then AwaitAddress else Deselected)
    else rf;
  on_spiWrite b rf :=
    match mode rf with
    | AwaitAddress =>
        mkRegFile (regs rf)
          (if Z.testbit b 7 then Reading (frame_reg b) else Writing (frame_reg b))
    | Writing a => mkRegFile (store (regs rf) a b) (Writing a)
    | _ => rf
    end;
  on_spiRead _ rf :=
    match mode rf with
    | Reading a => (regs rf a, rf)
    | _ => (0, rf)
    end;
  on_pause _ rf := rf
}.

(** ** What the specification says, in its own words *)

(** the frame bytes of section 4.1 *)
Definition write_frame (address : Z) : Z := js_and (js_shl address 1) 0x7E.
Definition read_frame (address : Z) : Z := js_or (js_and (js_shl address 1) 0x7E) 0x80.

(** a register write and a register read as seen on the bus: chip-select
    low, the frame, chip-select high *)
Definition write_transfer (address value : Z) : list Event :=
  [EvPin NSS 0; EvSpiWrite (write_frame address); EvSpiWrite value; EvPin NSS 1].
Definition read_transfer (address byte : Z) : list Event :=
  [EvPin NSS 0; EvSpiWrite (read_frame address); EvSpiRead 0 byte; EvPin NSS 1].

(** two-digit uppercase hexadecimal: high nibble, low nibble *)
Definition upper_hex_digit (d : Z) : ascii :=
  nth (Z.to_nat d) (list_ascii_of_string "0123456789ABCDEF") "?"%char.
Definition hex2 (b : Z) : string :=
  String (upper_hex_digit (b / 16)) (String (upper_hex_digit (b mod 16)) EmptyString).
Definition hex_uid (bytes : list Z) : string :=
  fold_right (fun b s => (hex2 b ++ s)%string) EmptyString bytes.

(** ** Reading register accesses off a trace

    A [pins.spiRead] belongs to the register whose read frame was the byte
    written just before it. *)
Fixpoint reads_from (last : option Z) (tr : list Event) : list (Z * Z) :=
  match tr with
  | [] => []
  | EvSpiWrite f :: tr' => reads_from (Some f) tr'
  | EvSpiRead _ v :: tr' =>
      match last with
      | Some f => (f, v) :: reads_from None tr'
      | None => reads_from None tr'
      end
  | _ :: tr' => reads_from None tr'
  end.

(** the values read from register [address], in order *)
Definition reg_reads (address : Z) (tr : list Event) : list Z :=
  map snd (filter (fun fv => fst fv =? read_frame address) (reads_from None tr)).

(** ** Replaying a trace on a transport

    A trace says what was put on the bus and what came back.  Replaying it
    hands every event to the transport in order and checks, at every
    [pins.spiRead], that the value in the trace is the value the transport
    answers there; [Some c'] is the state the transport is left in, [None]
    a read that does not agree. *)
Section Replay.
Context {C : Type} {T : Transport C}.

Fixpoint replay (tr : list Event) (c : C) : option C :=
  match tr with
  | [] => Some c
  | EvPin p level :: tr' => replay tr' (on_pin p level c)
  | EvSpiWrite v :: tr' => replay tr' (on_spiWrite v c)
  | EvSpiRead arg v :: tr' =>
      if fst (on_spiRead arg c) =? v
      then replay tr' (snd (on_spiRead arg c))
      else None
  | EvPause ms :: tr' => replay tr' (on_pause ms c)
  end.

(** a computation whose trace is what happened between it and the
    transport: every event reached the transport, every value read is the
    transport's answer, and the state it returns is the one the transport
    was left in *)
Definition faithful {A} (m : M C A) : Prop :=
  forall c, replay (evs (m c)) c = Some (dev (m c)).

End Replay.

(** ** The exchanges of section 4.4 as bus traffic *)

(** a burst written to the FIFO data register: one frame, several bytes *)
Definition fifo_write (bytes : list Z) : list Event :=
  EvPin NSS 0 :: EvSpiWrite (write_frame FIFODataReg)
    :: map EvSpiWrite bytes ++ [EvPin NSS 1].

(** StartSend set, 10 units of pause, StartSend cleared; [x] and [y] are
    the two values BitFramingReg is read with *)
Definition start_send (x y : Z) : list Event :=
  read_transfer BitFramingReg x
    ++ write_transfer BitFramingReg (js_or x 0x80)
    ++ [EvPause 10]
    ++ read_transfer BitFramingReg y
    ++ write_transfer BitFramingReg (js_and y (js_not 0x80)).

Definition request_exchange (reqMode x y : Z) : list Event :=
  write_transfer BitFramingReg 0x07
    ++ write_transfer FIFOLevelReg 0x80
    ++ fifo_write [reqMode]
    ++ write_transfer CommandReg PCD_TRANSCEIVE
    ++ start_send x y.

Definition anticoll_exchange (x y : Z) : list Event :=
  write_transfer FIFOLevelReg 0x80
    ++ fifo_write [PICC_ANTICOLL; 0x20]
    ++ write_transfer CommandReg PCD_TRANSCEIVE
    ++ start_send x y.

(** one 1-unit pause and one read of ComIrqReg per poll *)
Definition irq_polls (irqs : list Z) : list Event :=
  flat_map (fun v => EvPause 1 :: read_transfer ComIrqReg v) irqs.

Definition fifo_reads (bytes : list Z) : list Event :=
  flat_map (read_transfer FIFODataReg) bytes.

(** one read of CommandReg and one 1-unit pause per unsuccessful poll of
    the reset wait *)
Definition busy_polls (vs : list Z) : list Event :=
  flat_map (fun v => read_transfer CommandReg v ++ [EvPause 1]) vs.

(** neither RxIRq nor IdleIRq in a value read from ComIrqReg *)
Definition irq_clear (v : Z) : bool := Z.land v 0x30 =? 0.

(** The polls of a loop with a budget: at least one poll and at most
    [budget], no poll after one that shows an interrupt, and a last poll
    that shows one unless the budget is used up. *)
Definition polled (budget : nat) (irqs : list Z) : Prop :=
  exists earlier final,
    irqs = earlier ++ [final]
    /\ (List.length irqs <= budget)%nat
    /\ forallb irq_clear earlier = true
    /\ ((List.length irqs < budget)%nat -> irq_clear final = false).

(** all characters are digits or capital A to F *)
Definition is_upper_hex (c : ascii) : bool :=
  existsb (Ascii.eqb c) (list_ascii_of_string "0123456789ABCDEF").

Fixpoint all_chars (p : ascii -> bool) (s : string) : bool :=
  match s with
  | EmptyString => true
  | String c s' => p c && all_chars p s'
  end.

(** every value [pins.spiRead] returned in a trace is a byte *)
Fixpoint byte_reads (tr : list Event) : Prop :=
  match tr with
  | [] => True
  | EvSpiRead _ v :: tr' => is_byte v /\ byte_reads tr'
  | _ :: tr' => byte_reads tr'
  end.

Section Polling.
Context {C : Type} {T : Transport C}.

(** the transport once the soft reset is written and the settle delay
    is over *)
Definition afterSoftReset (c : C) : C :=
  dev (pause 50 (dev (writeReg CommandReg PCD_SOFTRESET c))).

(** the transport after [k] polls of CommandReg, each followed by its
    1-unit pause *)
Fixpoint afterPolls (k : nat) (c : C) : C :=
  match k with
  | O => c
  | S k' => afterPolls k' (dev (pause 1 (dev (readReg CommandReg c))))
  end.

(** what poll number [k] (from 0) of the reset wait reads *)
Definition resetPoll (c : C) (k : nat) : Z :=
  res (readReg CommandReg (afterPolls k (afterSoftReset c))).
End Polling.

(** the frame byte a following [pins.spiRead] would be attributed to *)
Definition pending (last : option Z) (tr : list Event) : option Z :=
  fold_left
    (fun st e => match e with EvSpiWrite f => Some f | _ => None end) tr last.

(** the 256 byte values, for checks by enumeration *)
Definition all_bytes : list Z := map Z.of_nat (seq 0 256).

(** ** Fixtures: scripted chips used as concrete runs *)

(** presence poll answered with a level of 2 after one interrupt poll,
    anti-collision with a level of 5 and the bytes 04 AA BB CC DD *)
Definition clean_card : Script :=
  script [0; 0x80; 0x30; 2; 0; 0x80; 5; 0x04; 0xAA; 0xBB; 0xCC; 0xDD] 0.


Definition dead_chip : Script := mkScript (fun _ => 0x10) O.

(** a register file with 0x47 in BitFramingReg and 0 elsewhere *)
Definition framing_file : RegFile :=
  mkRegFile (fun r => if r =? 0x0D then 0x47 else 0) Deselected.

(** ** The rest of the runtime: SPI set-up and the serial line

    [Init], [write] and [AntennaOff] call three more primitives,
    [pins.spiPins], [pins.spiFrequency] and [serial.writeLine].  They do
    not go over the bus: the board keeps what they set beside whatever is
    at the other end of the wires. *)

Record Board (C : Type) : Type := mkBoard {
  chip : C;                                                  (* the far end of the bus *)
  spi_pins : option (DigitalPin * DigitalPin * DigitalPin);  (* mosi, miso, sck *)
  spi_frequency : option Z;
  serial_out : list string                                   (* lines written, in order *)
}.
Arguments mkBoard {C} _ _ _ _.
Arguments chip {C} _.
Arguments spi_pins {C} _.
Arguments spi_frequency {C} _.
Arguments serial_out {C} _.

Definition with_chip {C} (b : Board C) (c : C) : Board C :=
  mkBoard c (spi_pins b) (spi_frequency b) (serial_out b).

(** a board is a transport: the four bus primitives go to its chip *)
#[export] Instance Board_Transport {C} {T : Transport C} : Transport (Board C) := {
  on_pin p level b := with_chip b (on_pin p level (chip b));
  on_spiWrite v b := with_chip b (on_spiWrite v (chip b));
  on_spiRead arg b :=
    (fst (on_spiRead arg (chip b)), with_chip b (snd (on_spiRead arg (chip b))));
  on_pause ms b := with_chip b (on_pause ms (chip b))
}.

(** a computation on the chip, run on the board that carries it *)
Definition lift {C A} (m : M C A) : M (Board C) A :=
  fun b => mkOut (res (m (chip b))) (evs (m (chip b))) (with_chip b (dev (m (chip b)))).

Section Blocks.
Context {C : Type} {T : Transport C}.

Definition spiPins (mosi miso sck : DigitalPin) : M (Board C) unit :=
  fun b =>
    mkOut tt [] (mkBoard (chip b) (Some (mosi, miso, sck)) (spi_frequency b) (serial_out b)).

Definition spiFrequency (frequency : Z) : M (Board C) unit :=
  fun b =>
    mkOut tt [] (mkBoard (chip b) (spi_pins b) (Some frequency) (serial_out b)).

Definition serialWriteLine (text : string) : M (Board C) unit :=
  fun b =>
    mkOut tt [] (mkBoard (chip b) (spi_pins b) (spi_frequency b) (serial_out b ++ [text])).

(** [Init] calls [resetModule], whose wait has no bound: [Init] takes the
    budget of polls and hands it on; [None] is the wait still going. *)
Definition Init (fuel : nat) : M (Board C) (option unit) :=
  spiPins MOSI MISO SCK ;;
  spiFrequency 1000000 ;;
  digitalWritePin NSS 1 ;;
  digitalWritePin RST 1 ;;
  done <- resetModule fuel ;;
  match done with
  | None => ret None
  | Some _ =>
      writeReg 0x2A 0x80 ;;
      writeReg 0x2B 0xA9 ;;
      writeReg 0x2C 0x03 ;;
      writeReg 0x2D 0xE8 ;;
      writeReg ModeReg 0x3D ;;
      antennaOn ;;
      ret (Some tt)
  end.

(** the board once [Init] has set the SPI pins and frequency and driven
    NSS and RST high *)
Definition afterSetup (b : Board C) : Board C :=
  dev ((spiPins MOSI MISO SCK ;; spiFrequency 1000000 ;;
        digitalWritePin NSS 1 ;; digitalWritePin RST 1) b).

(** the transport once the five configuration registers are written *)
Definition afterTimers (c : C) : C :=
  dev (writeReg ModeReg 0x3D
    (dev (writeReg 0x2D 0xE8
      (dev (writeReg 0x2C 0x03
        (dev (writeReg 0x2B 0xA9
          (dev (writeReg 0x2A 0x80 c))))))))).

(** the five configuration writes of [Init] *)
Definition timer_setup : list Event :=
  write_transfer 0x2A 0x80 ++ write_transfer 0x2B 0xA9
    ++ write_transfer 0x2C 0x03 ++ write_transfer 0x2D 0xE8
    ++ write_transfer ModeReg 0x3D.

Definition read : M (Board C) string :=
  ret "ExampleData"%string.

Definition write (text : string) : M (Board C) unit :=
  serialWriteLine ("Writing data: " ++ text)%string.

Definition AntennaOff : M (Board C) unit :=
  serialWriteLine "Antenna turned off."%string.

End Blocks.

(** ** Measures of a trace *)

(** Chip-select discipline.  [selected] says whether NSS is low.  NSS may
    be driven low only when it is high, SPI bytes move only while it is
    low, pauses are taken only while it is high, and the trace ends with
    it high.  Other pins are free. *)
Fixpoint cs_ok (selected : bool) (tr : list Event) : bool :=
  match tr with
  | [] => negb selected
  | EvPin p level :: tr' =>
      if pin_is_NSS p
      then (if level =? 0 then negb selected && cs_ok true tr' else cs_ok false tr')
      else cs_ok selected tr'
  | EvSpiWrite _ :: tr' => selected && cs_ok selected tr'
  | EvSpiRead _ _ :: tr' => selected && cs_ok selected tr'
  | EvPause _ :: tr' => negb selected && cs_ok selected tr'
  end.

(** the time spent in [basic.pause] *)
Fixpoint pause_total (tr : list Event) : Z :=
  match tr with
  | [] => 0
  | EvPause ms :: tr' => ms + pause_total tr'
  | _ :: tr' => pause_total tr'
  end.

(** the number of calls of [pins.spiRead] *)
Fixpoint spi_reads (tr : list Event) : nat :=
  match tr with
  | [] => O
  | EvSpiRead _ _ :: tr' => S (spi_reads tr')
  | _ :: tr' => spi_reads tr'
  end.

(** ** Reading a UID string back *)

Definition hex_value (c : ascii) : option Z :=
  match find (fun p => Ascii.eqb c (fst p))
          (combine (list_ascii_of_string "0123456789ABCDEF")
                   (map Z.of_nat (seq 0 16))) with
  | Some p => Some (snd p)
  | None => None
  end.

(** two characters per byte, high nibble first *)
Fixpoint parse_uid (s : string) : option (list Z) :=
  match s with
  | EmptyString => Some []
  | String h (String l s') =>
      match hex_value h, hex_value l, parse_uid s' with
      | Some a, Some b, Some bytes => Some (16 * a + b :: bytes)
      | _, _, _ => None
      end
  | String _ EmptyString => None
  end.

(** the registers [Init] writes before it turns to the antenna, on a
    register file whose contents were [f] *)
Definition configured (f : Z -> Z) : Z -> Z :=
  store (store (store (store (store (store f 0x01 0x0F) 0x2A 0x80) 0x2B 0xA9)
                  0x2C 0x03) 0x2D 0xE8) 0x11 0x3D.

(** ** More fixtures *)

(** a board with nothing set yet around a register file *)
Definition fresh_board (f : Z -> Z) : Board RegFile :=
  mkBoard (mkRegFile f Deselected) None None [].

(** a board wired to the chip that never clears bit 4 of CommandReg *)
Definition dead_board : Board Script := mkBoard dead_chip None None [].

(** * Lemmas *)

(** ** The 32-bit wrap-around, bit by bit *)

Arguments js_and : simpl never.
Arguments js_or : simpl never.
Arguments js_not : simpl never.
Arguments js_shl : simpl never.
Arguments write_frame : simpl never.
Arguments read_frame : simpl never.

Lemma to_int32_range z : is_int32 (to_int32 z).
Proof.
  unfold is_int32, to_int32.
  pose proof (Z.mod_pos_bound (z + 2 ^ 31) (2 ^ 32) eq_refl). lia.
Qed.

Lemma to_int32_id z : is_int32 z -> to_int32 z = z.
Proof.
  unfold is_int32, to_int32. intros Hz.
  rewrite Z.mod_small; lia.
Qed.

Lemma to_int32_mod z : to_int32 z mod 2 ^ 32 = z mod 2 ^ 32.
Proof.
  unfold to_int32.
  rewrite Zminus_mod, Zmod_mod, <- Zminus_mod.
  f_equal. lia.
Qed.

Lemma int32_high_bits t i : is_int32 t -> 31 <= i -> Z.testbit t i = Z.testbit t 31.
Proof.
  unfold is_int32. intros Ht Hi.
  destruct (Z.neg_nonneg_cases t) as [Hneg | Hpos].
  - (* t = lnot y with 0 <= y < 2^31 *)
    replace t with (Z.lnot (- t - 1)) by (unfold Z.lnot; lia).
    rewrite !Z.lnot_spec by lia.
    rewrite !(Z.bits_above_log2 (- t - 1)); try lia.
    + destruct (Z.eq_dec (- t - 1) 0) as [-> | Hne]; [cbn; lia |].
      apply Z.log2_lt_pow2; lia.
    + destruct (Z.eq_dec (- t - 1) 0) as [-> | Hne]; [cbn; lia |].
      assert (Z.log2 (- t - 1) < 31) by (apply Z.log2_lt_pow2; lia). lia.
  - rewrite !(Z.bits_above_log2 t); try lia.
    + destruct (Z.eq_dec t 0) as [-> | Hne]; [cbn; lia |].
      apply Z.log2_lt_pow2; lia.
    + destruct (Z.eq_dec t 0) as [-> | Hne]; [cbn; lia |].
      assert (Z.log2 t < 31) by (apply Z.log2_lt_pow2; lia). lia.
Qed.

Lemma to_int32_low_bits z i : 0 <= i < 32 -> Z.testbit (to_int32 z) i = Z.testbit z i.
Proof.
  intros Hi.
  rewrite <- (Z.mod_pow2_bits_low (to_int32 z) 32 i) by lia.
  rewrite to_int32_mod. apply Z.mod_pow2_bits_low; lia.
Qed.

Lemma to_int32_testbit z i :
  0 <= i -> Z.testbit (to_int32 z) i = Z.testbit z (Z.min i 31).
Proof.
  intros Hi. destruct (Z.le_gt_cases i 31) as [Hle | Hgt].
  - rewrite Z.min_l by lia. apply to_int32_low_bits; lia.
  - rewrite Z.min_r by lia.
    rewrite int32_high_bits by (apply to_int32_range || lia).
    apply to_int32_low_bits; lia.
Qed.

Lemma int32_of_fixpoint t : to_int32 t = t -> is_int32 t.
Proof. intros <-. apply to_int32_range. Qed.

Lemma lor_int32 a b : is_int32 a -> is_int32 b -> is_int32 (Z.lor a b).
Proof.
  intros Ha Hb. apply int32_of_fixpoint. apply Z.bits_inj'. intros i Hi.
  rewrite to_int32_testbit, !Z.lor_spec by lia.
  destruct (Z.le_gt_cases i 31).
  - now rewrite Z.min_l by lia.
  - rewrite Z.min_r by lia.
    now rewrite (int32_high_bits a i), (int32_high_bits b i) by (assumption || lia).
Qed.

Lemma land_int32 a b : is_int32 a -> is_int32 b -> is_int32 (Z.land a b).
Proof.
  intros Ha Hb. apply int32_of_fixpoint. apply Z.bits_inj'. intros i Hi.
  rewrite to_int32_testbit, !Z.land_spec by lia.
  destruct (Z.le_gt_cases i 31).
  - now rewrite Z.min_l by lia.
  - rewrite Z.min_r by lia.
    now rewrite (int32_high_bits a i), (int32_high_bits b i) by (assumption || lia).
Qed.

Lemma lnot_int32 a : is_int32 a -> is_int32 (Z.lnot a).
Proof. unfold is_int32, Z.lnot. lia. Qed.

Lemma js_or_range a b : is_int32 (js_or a b).
Proof. apply lor_int32; apply to_int32_range. Qed.

Lemma js_and_range a b : is_int32 (js_and a b).
Proof. apply land_int32; apply to_int32_range. Qed.

Lemma js_and_low a k : 0 <= k < 2 ^ 31 -> js_and a k = Z.land a k.
Proof.
  intros Hk. unfold js_and.
  rewrite (to_int32_id k) by (unfold is_int32; lia).
  apply Z.bits_inj'. intros i Hi. rewrite !Z.land_spec.
  destruct (Z.le_gt_cases i 31).
  - now rewrite to_int32_low_bits by lia.
  - rewrite (Z.bits_above_log2 k i), !andb_false_r; try lia.
    destruct (Z.eq_dec k 0) as [-> | Hne]; [cbn; lia |].
    assert (Z.log2 k < 31) by (apply Z.log2_lt_pow2; lia). lia.
Qed.

Lemma land_pow2 v n : 0 <= n -> (Z.land v (2 ^ n) = 0 <-> Z.testbit v n = false).
Proof.
  intros Hn. split.
  - intros H0.
    assert (Hb : Z.testbit (Z.land v (2 ^ n)) n = false) by (rewrite H0; apply Z.bits_0).
    rewrite Z.land_spec, Z.pow2_bits_true, andb_true_r in Hb by lia. exact Hb.
  - intros Hb. apply Z.bits_inj'. intros i Hi.
    rewrite Z.land_spec, Z.bits_0, Z.pow2_bits_eqb by lia.
    destruct (Z.eqb_spec n i) as [<- | _]; [now rewrite Hb | apply andb_false_r].
Qed.

Lemma write_frame_closed a : write_frame a = 2 * (a mod 64).
Proof.
  unfold write_frame. rewrite js_and_low by lia.
  unfold js_shl. change (Z.land 1 31) with 1.
  replace (2 * (a mod 64)) with (Z.shiftl (a mod 2 ^ 6) 1)
    by (rewrite Z.shiftl_mul_pow2 by lia; change (2 ^ 6) with 64; lia).
  change 0x7E with (Z.shiftl (Z.ones 6) 1).
  apply Z.bits_inj'. intros i Hi.
  rewrite Z.land_spec, !Z.shiftl_spec by lia.
  destruct (Z.lt_ge_cases (i - 1) 0) as [Hlt | Hge].
  - now rewrite !(Z.testbit_neg_r _ (i - 1)), andb_false_r by lia.
  - rewrite Z.testbit_ones by lia.
    destruct (Z.lt_ge_cases (i - 1) 6) as [H6 | H6].
    + rewrite Z.mod_pow2_bits_low by lia.
      rewrite to_int32_low_bits, Z.shiftl_spec, to_int32_low_bits by lia.
      replace (i - 1 <? 6) with true by (symmetry; apply Z.ltb_lt; lia).
      replace (0 <=? i - 1) with true by (symmetry; apply Z.leb_le; lia).
      now rewrite andb_true_r.
    + rewrite Z.mod_pow2_bits_high by lia.
      replace (i - 1 <? 6) with false by (symmetry; apply Z.ltb_ge; lia).
      now rewrite !andb_false_r.
Qed.

Lemma read_frame_closed a : read_frame a = 2 * (a mod 64) + 128.
Proof.
  unfold read_frame. fold (write_frame a). rewrite write_frame_closed.
  pose proof (Z.mod_pos_bound a 64 eq_refl) as Hm.
  unfold js_or. rewrite !to_int32_id by (unfold is_int32; lia).
  rewrite <- Z.lxor_lor, <- Z.add_nocarry_lxor; try reflexivity.
  all: apply Z.bits_inj'; intros i Hi; rewrite Z.land_spec, Z.bits_0.
  all: change 0x80 with (2 ^ 7); rewrite Z.pow2_bits_eqb by lia.
  all: destruct (Z.eqb_spec 7 i) as [<- | _]; [| apply andb_false_r].
  all: rewrite andb_true_r; apply Z.bits_above_log2; try lia.
  all: destruct (Z.eq_dec (a mod 64) 0) as [-> | Hne]; [cbn; lia |].
  all: assert (Z.log2 (2 * (a mod 64)) < 7) by (apply Z.log2_lt_pow2; lia); lia.
Qed.

(** ** Reading register accesses off a trace: lemmas *)

Lemma reads_from_app st t1 t2 :
  reads_from st (t1 ++ t2) = reads_from st t1 ++ reads_from (pending st t1) t2.
Proof.
  revert st. induction t1 as [| e t1 IH]; intros st; [reflexivity |].
  destruct e; cbn [app reads_from]; unfold pending; cbn [fold_left];
    try apply IH.
  destruct st; cbn [app]; [f_equal |]; apply IH.
Qed.

Lemma pending_app st t1 t2 : pending st (t1 ++ t2) = pending (pending st t1) t2.
Proof. apply fold_left_app. Qed.

Lemma reg_reads_app a t1 t2 :
  pending None t1 = None ->
  reg_reads a (t1 ++ t2) = reg_reads a t1 ++ reg_reads a t2.
Proof.
  intros H. unfold reg_reads.
  now rewrite reads_from_app, H, filter_app, map_app.
Qed.

Lemma pending_flat_map {A} (f : A -> list Event) l :
  (forall a st, pending st (f a) = None) ->
  pending None (flat_map f l) = None.
Proof.
  intros Hf. induction l as [| a l IH]; [reflexivity |].
  cbn [flat_map]. now rewrite pending_app, Hf.
Qed.

Lemma reg_reads_flat_map {A} (f : A -> list Event) a l :
  (forall x st, pending st (f x) = None) ->
  reg_reads a (flat_map f l) = flat_map (fun x => reg_reads a (f x)) l.
Proof.
  intros Hf. induction l as [| x l IH]; [reflexivity |].
  cbn [flat_map]. now rewrite reg_reads_app, IH by apply Hf.
Qed.

Lemma flat_map_singleton {A} (l : list A) : flat_map (fun x => [x]) l = l.
Proof. induction l as [| x l IH]; [reflexivity | cbn; now rewrite IH]. Qed.

Lemma flat_map_nil {A B} (l : list A) : flat_map (fun _ => @nil B) l = [].
Proof. induction l as [| x l IH]; [reflexivity | exact IH]. Qed.

Lemma pending_irq_polls irqs : pending None (irq_polls irqs) = None.
Proof. now apply pending_flat_map. Qed.

Lemma pending_fifo_reads bs : pending None (fifo_reads bs) = None.
Proof. now apply pending_flat_map. Qed.

Lemma reg_reads_irq_polls a irqs :
  reg_reads a (irq_polls irqs) =
  if read_frame ComIrqReg =? read_frame a then irqs else [].
Proof.
  unfold irq_polls. rewrite reg_reads_flat_map by reflexivity.
  unfold reg_reads. cbn [read_transfer reads_from filter fst snd map].
  destruct (read_frame ComIrqReg =? read_frame a); cbn [map snd].
  - apply flat_map_singleton.
  - apply flat_map_nil.
Qed.

Lemma reg_reads_fifo_reads a bs :
  reg_reads a (fifo_reads bs) =
  if read_frame FIFODataReg =? read_frame a then bs else [].
Proof.
  unfold fifo_reads. rewrite reg_reads_flat_map by reflexivity.
  unfold reg_reads. cbn [read_transfer reads_from filter fst snd map].
  destruct (read_frame FIFODataReg =? read_frame a); cbn [map snd].
  - apply flat_map_singleton.
  - apply flat_map_nil.
Qed.

Lemma reg_reads_read_transfer a b v :
  reg_reads a (read_transfer b v) =
  if read_frame b =? read_frame a then [v] else [].
Proof.
  unfold reg_reads. cbn [read_transfer reads_from filter fst snd map].
  now destruct (read_frame b =? read_frame a).
Qed.

Lemma reg_reads_request_exchange a reqMode x y :
  reg_reads a (request_exchange reqMode x y) =
  if read_frame BitFramingReg =? read_frame a then [x; y] else [].
Proof.
  unfold reg_reads, request_exchange, start_send, fifo_write, write_transfer.
  cbn [read_transfer reads_from filter fst snd map app].
  now destruct (read_frame BitFramingReg =? read_frame a).
Qed.

Lemma reg_reads_anticoll_exchange a x y :
  reg_reads a (anticoll_exchange x y) =
  if read_frame BitFramingReg =? read_frame a then [x; y] else [].
Proof.
  unfold reg_reads, anticoll_exchange, start_send, fifo_write, write_transfer.
  cbn [read_transfer reads_from filter fst snd map app].
  now destruct (read_frame BitFramingReg =? read_frame a).
Qed.

Lemma pending_request_exchange reqMode x y :
  pending None (request_exchange reqMode x y) = None.
Proof. reflexivity. Qed.

Lemma pending_anticoll_exchange x y :
  pending None (anticoll_exchange x y) = None.
Proof. reflexivity. Qed.

Section Runs.
Context {C : Type} {T : Transport C}.

Lemma evs_bind {A B} (m : M C A) (f : A -> M C B) c :
  evs (bind m f c) = evs (m c) ++ evs (f (res (m c)) (dev (m c))).
Proof. reflexivity. Qed.

Lemma res_bind {A B} (m : M C A) (f : A -> M C B) c :
  res (bind m f c) = res (f (res (m c)) (dev (m c))).
Proof. reflexivity. Qed.

Lemma dev_bind {A B} (m : M C A) (f : A -> M C B) c :
  dev (bind m f c) = dev (f (res (m c)) (dev (m c))).
Proof. reflexivity. Qed.

Lemma writeReg_evs addr val c : evs (writeReg addr val c) = write_transfer addr val.
Proof. unfold write_transfer, write_frame. reflexivity. Qed.

Lemma readReg_evs addr c :
  evs (readReg addr c) = read_transfer addr (res (readReg addr c)).
Proof. unfold read_transfer, read_frame. reflexivity. Qed.

Lemma setBitMask_evs addr mask c :
  evs (setBitMask addr mask c) =
  read_transfer addr (res (readReg addr c))
    ++ write_transfer addr (js_or (res (readReg addr c)) mask).
Proof.
  unfold setBitMask. now rewrite evs_bind, readReg_evs, writeReg_evs.
Qed.

Lemma clearBitMask_evs addr mask c :
  evs (clearBitMask addr mask c) =
  read_transfer addr (res (readReg addr c))
    ++ write_transfer addr (js_and (res (readReg addr c)) (js_not mask)).
Proof.
  unfold clearBitMask. now rewrite evs_bind, readReg_evs, writeReg_evs.
Qed.

Lemma irqPoll_unfold i c :
  irqPoll i c =
  (pause 1 ;;
   irq <- readReg ComIrqReg ;;
   match i with
   | S (S _ as i') => if js_and irq 0x30 =? 0 then irqPoll i' else ret irq
   | _ => ret irq
   end) c.
Proof. destruct i; reflexivity. Qed.

Lemma polled_one v budget : (1 <= budget)%nat ->
  ((1 < budget)%nat -> irq_clear v = false) -> polled budget [v].
Proof.
  intros Hb Hv. exists [], v. cbn. repeat split; auto.
Qed.

Lemma polled_cons v irqs budget :
  irq_clear v = true -> polled budget irqs -> polled (S budget) (v :: irqs).
Proof.
  intros Hv (pre & fin & -> & Hlen & Hpre & Hfin).
  exists (v :: pre), fin. cbn [app List.length forallb] in *. rewrite Hv, Hpre.
  repeat split; [lia | intros H; apply Hfin; lia].
Qed.

Lemma irq_clear_js v : (js_and v 0x30 =? 0) = irq_clear v.
Proof. unfold irq_clear. now rewrite js_and_low by lia. Qed.

Lemma irqPoll_run i c :
  exists irqs,
    evs (irqPoll (S i) c) = irq_polls irqs
    /\ res (irqPoll (S i) c) = last irqs 0
    /\ polled (S i) irqs.
Proof.
  revert c. induction i as [| i IH]; intros c.
  - eexists [_]. repeat split.
    apply polled_one; lia.
  - rewrite irqPoll_unfold, !evs_bind, !res_bind.
    set (c1 := dev (pause 1 c)).
    set (irq := res (readReg ComIrqReg c1)).
    set (c2 := dev (readReg ComIrqReg c1)).
    rewrite irq_clear_js.
    destruct (irq_clear irq) eqn:E.
    + destruct (IH c2) as (irqs & Hev & Hres & Hp).
      exists (irq :: irqs). repeat split.
      * rewrite Hev. reflexivity.
      * rewrite Hres. destruct Hp as (pre & fin & -> & _).
        now destruct pre.
      * apply polled_cons; auto.
    + exists [irq]. repeat split.
      apply polled_one; [lia | auto].
Qed.

Lemma requestCard_run reqMode c :
  exists x y irqs lvl,
    evs (requestCard reqMode c) =
      request_exchange reqMode x y ++ irq_polls irqs
        ++ read_transfer FIFOLevelReg lvl
    /\ res (requestCard reqMode c) = (if lvl =? 2 then 1 else 0)
    /\ polled 25 irqs.
Proof.
  unfold requestCard.
  repeat (rewrite ?evs_bind, ?res_bind, ?dev_bind).
  rewrite !writeReg_evs, setBitMask_evs, clearBitMask_evs.
  match goal with |- context [irqPoll 25 ?c'] =>
    destruct (irqPoll_run 24 c') as (irqs & Hev & _ & Hp); rewrite Hev;
    set (c2 := dev (irqPoll 25 c')) end.
  idtac.
  rewrite readReg_evs.
  set (lvl := res (readReg FIFOLevelReg c2)).
  do 2 eexists. exists irqs, lvl.
  split; [| split; [| exact Hp]].
  - destruct (lvl =? 2); cbn [evs ret]; rewrite app_nil_r. reflexivity. reflexivity.
  - now destruct (lvl =? 2).
Qed.

Lemma readFifo_run n uid c :
  exists bs,
    List.length bs = n
    /\ evs (readFifo n uid c) = fifo_reads bs
    /\ res (readFifo n uid c) = uid ++ bs.
Proof.
  revert uid c. induction n as [| n IH]; intros uid c.
  - exists []. cbn. now rewrite app_nil_r.
  - cbn [readFifo]. rewrite evs_bind, res_bind, readReg_evs.
    set (b := res (readReg FIFODataReg c)).
    destruct (IH (uid ++ [b]) (dev (readReg FIFODataReg c))) as (bs & Hlen & Hev & Hres).
    exists (b :: bs). rewrite Hev, Hres, <- app_assoc. cbn [List.length].
    repeat split. now rewrite Hlen.
Qed.

Lemma anticollision_run c :
  exists x y lvl bs,
    evs (anticollision c) =
      anticoll_exchange x y ++ read_transfer FIFOLevelReg lvl ++ fifo_reads bs
    /\ res (anticollision c) = formatUid bs EmptyString
    /\ List.length bs = (if lvl =? 5 then 5%nat else 0%nat).
Proof.
  unfold anticollision.
  repeat (rewrite ?evs_bind, ?res_bind, ?dev_bind).
  rewrite !writeReg_evs, setBitMask_evs, clearBitMask_evs, readReg_evs.
  match goal with |- context [res (readReg FIFOLevelReg ?c')] =>
    set (c2 := dev (readReg FIFOLevelReg c'));
    set (lvl := res (readReg FIFOLevelReg c')) end.
  destruct (Z.eqb_spec lvl 5) as [E | E].
  - cbn [negb]. rewrite evs_bind, res_bind.
    destruct (readFifo_run (Z.to_nat lvl) [] c2) as (bs & Hlen & Hev & Hres).
    rewrite Hev, Hres. do 2 eexists. exists lvl, bs.
    cbn [evs ret res app]. rewrite app_nil_r.
    repeat split. now rewrite Hlen, E.
  - cbn [negb evs ret res]. do 2 eexists. exists lvl, [].
    repeat split. apply Z.eqb_neq in E. now rewrite E.
Qed.

Lemma getID_absent c :
  res (requestCard PICC_REQIDL c) <> 1 ->
  res (getID c) = EmptyString
  /\ evs (getID c) = evs (requestCard PICC_REQIDL c)
  /\ dev (getID c) = dev (requestCard PICC_REQIDL c).
Proof.
  intros H. apply Z.eqb_neq in H. unfold getID. repeat split.
  - now rewrite res_bind, H.
  - rewrite evs_bind, H. apply app_nil_r.
  - rewrite dev_bind, H. cbv beta iota delta [ret dev]. reflexivity.
Qed.

Lemma getID_present c :
  res (requestCard PICC_REQIDL c) = 1 ->
  res (getID c) = res (anticollision (dev (requestCard PICC_REQIDL c)))
  /\ evs (getID c) =
       evs (requestCard PICC_REQIDL c)
         ++ evs (anticollision (dev (requestCard PICC_REQIDL c))).
Proof.
  intros H. unfold getID. split.
  - rewrite res_bind, H. reflexivity.
  - rewrite evs_bind, H. reflexivity.
Qed.

(** *** The reset wait *)

Lemma js_bit4 v : negb (js_and v (js_shl 1 4) =? 0) = Z.testbit v 4.
Proof.
  replace (js_shl 1 4) with (2 ^ 4) by (vm_compute; reflexivity).
  rewrite js_and_low by lia.
  destruct (Z.testbit v 4) eqn:E.
  - destruct (Z.eqb_spec (Z.land v (2 ^ 4)) 0) as [H0 | _]; [| reflexivity].
    apply land_pow2 in H0; [congruence | lia].
  - apply (land_pow2 v 4) in E; [| lia]. now rewrite E.
Qed.

Lemma resetWait_res fuel c :
  res (resetWait (S fuel) c) =
  if Z.testbit (res (readReg CommandReg c)) 4
  then res (resetWait fuel (dev (pause 1 (dev (readReg CommandReg c)))))
  else Some tt.
Proof.
  cbn [resetWait]. rewrite res_bind, js_bit4.
  destruct (Z.testbit (res (readReg CommandReg c)) 4).
  - now rewrite res_bind.
  - reflexivity.
Qed.

Lemma resetWait_evs fuel c :
  evs (resetWait (S fuel) c) =
  read_transfer CommandReg (res (readReg CommandReg c))
    ++ (if Z.testbit (res (readReg CommandReg c)) 4
        then EvPause 1
               :: evs (resetWait fuel (dev (pause 1 (dev (readReg CommandReg c)))))
        else []).
Proof.
  cbn [resetWait]. rewrite evs_bind, js_bit4, readReg_evs.
  destruct (Z.testbit (res (readReg CommandReg c)) 4).
  - now rewrite evs_bind.
  - reflexivity.
Qed.

Lemma resetWait_returns fuel c :
  res (resetWait fuel c) = Some tt <->
  exists k, (k < fuel)%nat
            /\ Z.testbit (res (readReg CommandReg (afterPolls k c))) 4 = false.
Proof.
  revert c. induction fuel as [| fuel IH]; intros c.
  - split; [discriminate | intros (k & Hk & _); lia].
  - rewrite resetWait_res.
    destruct (Z.testbit (res (readReg CommandReg c)) 4) eqn:E.
    + rewrite IH. split.
      * intros (k & Hk & Hb). exists (S k). split; [lia | exact Hb].
      * intros ([| k] & Hk & Hb); [cbn [afterPolls] in Hb; congruence |].
        exists k. split; [lia | exact Hb].
    + split; [| reflexivity]. intros _. exists O. split; [lia | exact E].
Qed.

Lemma resetWait_run fuel c :
  exists vs,
    forallb (fun v => Z.testbit v 4) vs = true
    /\ ((exists v, res (resetWait fuel c) = Some tt
                   /\ Z.testbit v 4 = false
                   /\ (List.length vs < fuel)%nat
                   /\ evs (resetWait fuel c) = busy_polls vs ++ read_transfer CommandReg v)
        \/ (res (resetWait fuel c) = None
            /\ List.length vs = fuel
            /\ evs (resetWait fuel c) = busy_polls vs)).
Proof.
  revert c. induction fuel as [| fuel IH]; intros c.
  - exists []. split; [reflexivity |]. right. repeat split.
  - rewrite resetWait_res, resetWait_evs.
    set (v0 := res (readReg CommandReg c)).
    destruct (Z.testbit v0 4) eqn:E.
    + destruct (IH (dev (pause 1 (dev (readReg CommandReg c)))))
        as (vs & Hvs & [(v & Hres & Hv & Hlen & Hev) | (Hres & Hlen & Hev)]).
      * exists (v0 :: vs). cbn [forallb]. rewrite E, Hvs. split; [reflexivity |].
        left. exists v. rewrite Hres, Hev. cbn [List.length busy_polls flat_map].
        repeat split; [assumption | lia].
      * exists (v0 :: vs). cbn [forallb]. rewrite E, Hvs. split; [reflexivity |].
        right. rewrite Hres, Hev. cbn [List.length busy_polls flat_map].
        repeat split; lia.
    + exists []. split; [reflexivity |]. left. exists v0.
      repeat split; try assumption; cbn [List.length]; lia.
Qed.
End Runs.

(** ** Hexadecimal formatting *)

Lemma all_bytes_complete b : is_byte b -> In b all_bytes.
Proof.
  intros Hb. unfold all_bytes. apply in_map_iff.
  exists (Z.to_nat b). unfold is_byte in Hb. split; [lia |].
  apply in_seq. lia.
Qed.

Lemma hexByte_all_bytes :
  forallb (fun b => String.eqb (hexByte b) (hex2 b)) all_bytes = true.
Proof. vm_compute. reflexivity. Qed.

Lemma hex2_all_bytes :
  forallb (fun b => all_chars is_upper_hex (hex2 b)) all_bytes = true.
Proof. vm_compute. reflexivity. Qed.

Lemma hexByte_hex2 b : is_byte b -> hexByte b = hex2 b.
Proof.
  intros Hb. apply String.eqb_eq.
  exact (proj1 (forallb_forall _ _) hexByte_all_bytes b (all_bytes_complete b Hb)).
Qed.

Lemma hex2_upper b : is_byte b -> all_chars is_upper_hex (hex2 b) = true.
Proof.
  intros Hb.
  exact (proj1 (forallb_forall _ _) hex2_all_bytes b (all_bytes_complete b Hb)).
Qed.

Lemma append_assoc (s1 s2 s3 : string) :
  ((s1 ++ s2) ++ s3 = s1 ++ (s2 ++ s3))%string.
Proof. induction s1 as [| c s1 IH]; cbn; [reflexivity | now rewrite IH]. Qed.

Lemma formatUid_hex_uid bs acc :
  Forall is_byte bs -> formatUid bs acc = (acc ++ hex_uid bs)%string.
Proof.
  intros H. revert acc. induction H as [| b bs Hb _ IH]; intros acc.
  - cbn. induction acc as [| c acc IHacc]; cbn; [reflexivity | now rewrite <- IHacc].
  - cbn [formatUid hex_uid fold_right]. rewrite IH, hexByte_hex2 by assumption.
    apply append_assoc.
Qed.

Lemma hex_uid_cons b bs :
  hex_uid (b :: bs) =
  String (upper_hex_digit (b / 16)) (String (upper_hex_digit (b mod 16)) (hex_uid bs)).
Proof. reflexivity. Qed.

Lemma hex_uid_length bs : String.length (hex_uid bs) = (2 * List.length bs)%nat.
Proof.
  induction bs as [| b bs IH]; [reflexivity |].
  rewrite hex_uid_cons. cbn [String.length List.length]. rewrite IH. lia.
Qed.

Lemma hex_uid_upper bs :
  Forall is_byte bs -> all_chars is_upper_hex (hex_uid bs) = true.
Proof.
  induction 1 as [| b bs Hb _ IH]; [reflexivity |].
  pose proof (hex2_upper b Hb) as H2. unfold hex2 in H2.
  rewrite hex_uid_cons. cbn [all_chars] in *. rewrite IH.
  now rewrite !andb_true_r in *.
Qed.

Lemma byte_reads_app t1 t2 : byte_reads (t1 ++ t2) <-> byte_reads t1 /\ byte_reads t2.
Proof.
  induction t1 as [| e t1 IH]; cbn [app byte_reads]; [tauto |].
  destruct e; tauto.
Qed.

Lemma byte_reads_fifo_reads bs : byte_reads (fifo_reads bs) -> Forall is_byte bs.
Proof.
  induction bs as [| b bs IH]; [constructor |].
  cbn. intros [Hb H]. constructor; auto.
Qed.

(** ** The register file behind the bus *)

Lemma read_frame_bit7 a : Z.testbit (read_frame a) 7 = true.
Proof.
  rewrite read_frame_closed. pose proof (Z.mod_pos_bound a 64 eq_refl).
  apply Z.testbit_true; [lia |].
  replace ((2 * (a mod 64) + 128) / 2 ^ 7) with 1; [reflexivity |].
  apply Z.div_unique with (r := 2 * (a mod 64)); lia.
Qed.

Lemma write_frame_bit7 a : Z.testbit (write_frame a) 7 = false.
Proof.
  rewrite write_frame_closed. pose proof (Z.mod_pos_bound a 64 eq_refl).
  apply Z.testbit_false; [lia |].
  rewrite Z.div_small; [reflexivity | lia].
Qed.

Lemma frame_reg_div x : frame_reg x = (x / 2) mod 64.
Proof.
  unfold frame_reg. change 0x3F with (Z.ones 6).
  rewrite Z.land_ones, Z.shiftr_div_pow2 by lia. reflexivity.
Qed.

Lemma frame_reg_read a : frame_reg (read_frame a) = a mod 64.
Proof.
  rewrite frame_reg_div, read_frame_closed.
  pose proof (Z.mod_pos_bound a 64 eq_refl).
  replace ((2 * (a mod 64) + 128) / 2) with (a mod 64 + 1 * 64)
    by (apply Z.div_unique with (r := 0); lia).
  rewrite Z.mod_add, Z.mod_mod; lia.
Qed.

Lemma frame_reg_write a : frame_reg (write_frame a) = a mod 64.
Proof.
  rewrite frame_reg_div, write_frame_closed.
  pose proof (Z.mod_pos_bound a 64 eq_refl).
  replace (2 * (a mod 64) / 2) with (a mod 64)
    by (apply Z.div_unique with (r := 0); lia).
  rewrite Z.mod_mod; lia.
Qed.

Lemma readReg_res {C} {T : Transport C} addr (c : C) :
  res (readReg addr c) =
  fst (on_spiRead 0 (on_spiWrite (read_frame addr) (on_pin NSS 0 c))).
Proof. unfold read_frame. reflexivity. Qed.

Lemma readReg_dev {C} {T : Transport C} addr (c : C) :
  dev (readReg addr c) =
  on_pin NSS 1 (snd (on_spiRead 0 (on_spiWrite (read_frame addr) (on_pin NSS 0 c)))).
Proof. unfold read_frame. reflexivity. Qed.

Lemma writeReg_dev {C} {T : Transport C} addr val (c : C) :
  dev (writeReg addr val c) =
  on_pin NSS 1 (on_spiWrite val (on_spiWrite (write_frame addr) (on_pin NSS 0 c))).
Proof. unfold write_frame. reflexivity. Qed.

Lemma regfile_readReg a (rf : RegFile) :
  res (readReg a rf) = regs rf (a mod 64)
  /\ dev (readReg a rf) = mkRegFile (regs rf) Deselected.
Proof.
  rewrite readReg_res, readReg_dev.
  cbn [on_pin on_spiWrite on_spiRead RegFile_Transport NSS pin_is_NSS mode regs].
  rewrite read_frame_bit7, frame_reg_read. split; reflexivity.
Qed.

Lemma regfile_writeReg a v (rf : RegFile) :
  dev (writeReg a v rf) = mkRegFile (store (regs rf) (a mod 64) v) Deselected.
Proof.
  rewrite writeReg_dev.
  cbn [on_pin on_spiWrite on_spiRead RegFile_Transport NSS pin_is_NSS mode regs].
  rewrite write_frame_bit7, frame_reg_write. reflexivity.
Qed.

Lemma regfile_setBitMask a m (rf : RegFile) :
  dev (setBitMask a m rf) =
  mkRegFile (store (regs rf) (a mod 64) (js_or (regs rf (a mod 64)) m)) Deselected.
Proof.
  unfold setBitMask. rewrite dev_bind, regfile_writeReg.
  destruct (regfile_readReg a rf) as [-> ->]. reflexivity.
Qed.

Lemma regfile_clearBitMask a m (rf : RegFile) :
  dev (clearBitMask a m rf) =
  mkRegFile (store (regs rf) (a mod 64) (js_and (regs rf (a mod 64)) (js_not m)))
    Deselected.
Proof.
  unfold clearBitMask. rewrite dev_bind, regfile_writeReg.
  destruct (regfile_readReg a rf) as [-> ->]. reflexivity.
Qed.

Lemma store_same f a v : store f a v a = v.
Proof. unfold store. now rewrite Z.eqb_refl. Qed.

Lemma store_store f a v w r : store (store f a v) a w r = store f a w r.
Proof. unfold store. now destruct (r =? a). Qed.

Lemma js_or_absorb v m : js_or (js_or v m) m = js_or v m.
Proof.
  unfold js_or at 1. rewrite (to_int32_id (js_or v m)) by apply js_or_range.
  unfold js_or. now rewrite <- Z.lor_assoc, Z.lor_diag.
Qed.

Lemma js_clear_then_set v m :
  is_int32 v -> is_int32 m -> js_or (js_and v (js_not m)) m = Z.lor v m.
Proof.
  intros Hv Hm. unfold js_or.
  rewrite (to_int32_id (js_and _ _)) by apply js_and_range.
  unfold js_and, js_not.
  rewrite (to_int32_id m) by assumption.
  rewrite (to_int32_id (Z.lnot m)) by now apply lnot_int32.
  rewrite (to_int32_id v) by assumption.
  apply Z.bits_inj'. intros i Hi.
  rewrite !Z.lor_spec, Z.land_spec, Z.lnot_spec by lia.
  now destruct (Z.testbit v i), (Z.testbit m i).
Qed.

Section Reset.
Context {C : Type} {T : Transport C}.

Lemma resetModule_res fuel (c : C) :
  res (resetModule fuel c) = res (resetWait fuel (afterSoftReset c)).
Proof. unfold resetModule. rewrite !res_bind. reflexivity. Qed.

Lemma resetModule_evs fuel (c : C) :
  evs (resetModule fuel c) =
  write_transfer CommandReg PCD_SOFTRESET
    ++ EvPause 50 :: evs (resetWait fuel (afterSoftReset c)).
Proof. unfold resetModule. rewrite !evs_bind, writeReg_evs. reflexivity. Qed.
End Reset.



(** ** Running the driver on a board *)

Section Lifting.
Context {C : Type} {T : Transport C}.

Lemma writeReg_lift addr val (b : Board C) :
  writeReg addr val b = lift (writeReg addr val) b.
Proof. reflexivity. Qed.

Lemma readReg_lift addr (b : Board C) : readReg addr b = lift (readReg addr) b.
Proof. reflexivity. Qed.

Lemma pause_lift ms (b : Board C) : pause ms b = lift (pause ms) b.
Proof. reflexivity. Qed.

Lemma bind_lift {A B} (m : M C A) (f : A -> M C B) (b : Board C) :
  bind (lift m) (fun a => lift (f a)) b = lift (bind m f) b.
Proof. reflexivity. Qed.

Lemma bind_ext {S A B} (m m' : M S A) (f f' : A -> M S B) (s : S) :
  m s = m' s -> (forall a s', f a s' = f' a s') -> bind m f s = bind m' f' s.
Proof. intros Hm Hf. unfold bind. rewrite Hm, Hf. reflexivity. Qed.

Lemma setBitMask_lift addr mask (b : Board C) :
  setBitMask addr mask b = lift (setBitMask addr mask) b.
Proof. reflexivity. Qed.

Lemma clearBitMask_lift addr mask (b : Board C) :
  clearBitMask addr mask b = lift (clearBitMask addr mask) b.
Proof. reflexivity. Qed.

Lemma antennaOn_lift (b : Board C) : antennaOn b = lift antennaOn b.
Proof.
  unfold antennaOn. rewrite <- bind_lift. apply bind_ext; [apply readReg_lift |].
  intros value s. destruct (negb (js_and value 3 =? 3));
    [reflexivity | destruct s; reflexivity].
Qed.

Lemma resetWait_lift fuel (b : Board C) : resetWait fuel b = lift (resetWait fuel) b.
Proof.
  revert b. induction fuel as [| fuel IH]; intros b; [destruct b; reflexivity |].
  cbn [resetWait]. rewrite <- bind_lift. apply bind_ext; [apply readReg_lift |].
  intros v s. destruct (negb (js_and v (js_shl 1 4) =? 0));
    [| destruct s; reflexivity].
  rewrite <- bind_lift. apply bind_ext; [apply pause_lift | intros _ s'; apply IH].
Qed.

Lemma resetModule_lift fuel (b : Board C) :
  resetModule fuel b = lift (resetModule fuel) b.
Proof.
  unfold resetModule. rewrite <- bind_lift. apply bind_ext; [apply writeReg_lift |].
  intros _ s. rewrite <- bind_lift. apply bind_ext; [apply pause_lift |].
  intros _ s'. apply resetWait_lift.
Qed.
End Lifting.

(** ** [Init], step by step *)

Section InitSteps.
Context {C : Type} {T : Transport C}.

Lemma resetWait_dev fuel (c : C) :
  dev (resetWait (S fuel) c) =
  if Z.testbit (res (readReg CommandReg c)) 4
  then dev (resetWait fuel (dev (pause 1 (dev (readReg CommandReg c)))))
  else dev (readReg CommandReg c).
Proof.
  cbn [resetWait]. rewrite dev_bind, js_bit4.
  destruct (Z.testbit (res (readReg CommandReg c)) 4).
  - now rewrite dev_bind.
  - reflexivity.
Qed.

Lemma resetModule_dev fuel (c : C) :
  dev (resetModule fuel c) = dev (resetWait fuel (afterSoftReset c)).
Proof. unfold resetModule. rewrite !dev_bind. reflexivity. Qed.

Lemma Init_res fuel (b : Board C) :
  res (Init fuel b) = res (resetModule fuel (afterSetup b)).
Proof.
  unfold Init, afterSetup. rewrite !res_bind, !dev_bind.
  match goal with |- context [res (resetModule fuel ?s)] =>
    destruct (res (resetModule fuel s)) as [[] |] end.
  - rewrite !res_bind. reflexivity.
  - reflexivity.
Qed.

Lemma Init_evs fuel (b : Board C) :
  evs (Init fuel b) =
  [EvPin NSS 1; EvPin RST 1] ++ evs (resetModule fuel (afterSetup b))
    ++ match res (resetModule fuel (afterSetup b)) with
       | None => []
       | Some _ =>
           timer_setup
             ++ evs (antennaOn (afterTimers (dev (resetModule fuel (afterSetup b)))))
       end.
Proof.
  unfold Init, afterSetup, afterTimers.
  repeat rewrite ?evs_bind, ?res_bind, ?dev_bind.
  cbn [evs spiPins spiFrequency digitalWritePin app].
  do 2 f_equal. f_equal.
  match goal with |- context [res (resetModule fuel ?s)] =>
    destruct (res (resetModule fuel s)) as [[] |] end.
  - repeat rewrite ?evs_bind, ?dev_bind. rewrite !writeReg_evs. cbn [evs ret].
    unfold timer_setup. rewrite app_nil_r, <- !app_assoc. reflexivity.
  - reflexivity.
Qed.

Lemma Init_dev fuel (b : Board C) :
  dev (Init fuel b) =
  match res (resetModule fuel (afterSetup b)) with
  | None => dev (resetModule fuel (afterSetup b))
  | Some _ => dev (antennaOn (afterTimers (dev (resetModule fuel (afterSetup b)))))
  end.
Proof.
  unfold Init, afterSetup, afterTimers. rewrite !dev_bind.
  match goal with |- context [res (resetModule fuel ?s)] =>
    destruct (res (resetModule fuel s)) as [[] |] end.
  - rewrite !dev_bind. reflexivity.
  - reflexivity.
Qed.
End InitSteps.

(** ** The two exchanges on the register file *)

Lemma dev_ret {S A} (a : A) (s : S) : dev (ret a s) = s.
Proof. reflexivity. Qed.
Lemma evs_ret {S A} (a : A) (s : S) : evs (ret a s) = [].
Proof. reflexivity. Qed.
Lemma res_ret {S A} (a : A) (s : S) : res (ret a s) = a.
Proof. reflexivity. Qed.

Lemma regfile_readReg_res a (rf : RegFile) : res (readReg a rf) = regs rf (a mod 64).
Proof. apply regfile_readReg. Qed.

Lemma regfile_readReg_dev a (rf : RegFile) :
  dev (readReg a rf) = mkRegFile (regs rf) Deselected.
Proof. apply regfile_readReg. Qed.

Lemma regfile_pause ms (rf : RegFile) : dev (pause ms rf) = rf.
Proof. reflexivity. Qed.

(** a burst of one, respectively two, bytes into the FIFO data register *)
Lemma regfile_burst1 (rf : RegFile) b1 :
  dev (digitalWritePin NSS 1
    (dev (spiWrite b1
      (dev (spiWrite (js_and (js_shl FIFODataReg 1) 0x7E)
        (dev (digitalWritePin NSS 0 rf))))))) =
  mkRegFile (store (regs rf) 0x09 b1) Deselected.
Proof. vm_compute. reflexivity. Qed.

Lemma regfile_burst2 (rf : RegFile) b1 b2 :
  dev (digitalWritePin NSS 1
    (dev (spiWrite b2
      (dev (spiWrite b1
        (dev (spiWrite (js_and (js_shl FIFODataReg 1) 0x7E)
          (dev (digitalWritePin NSS 0 rf))))))))) =
  mkRegFile (store (store (regs rf) 0x09 b1) 0x09 b2) Deselected.
Proof. vm_compute. reflexivity. Qed.

Lemma regfile_irqPoll i (rf : RegFile) :
  dev (irqPoll i rf) = mkRegFile (regs rf) Deselected.
Proof.
  revert rf. induction i as [i IH] using lt_wf_ind. intros rf.
  rewrite irqPoll_unfold, !dev_bind, regfile_pause, regfile_readReg_dev.
  destruct i as [| [| i']]; [reflexivity | reflexivity |].
  match goal with |- context [if ?t then _ else _] => destruct t end.
  - rewrite IH by lia. reflexivity.
  - reflexivity.
Qed.

Lemma regfile_requestCard reqMode (rf : RegFile) :
  regs (dev (requestCard reqMode rf)) 0x0D = 0x07.
Proof.
  unfold requestCard. cbv zeta. rewrite !dev_bind.
  match goal with |- context [if ?t then _ else _] => destruct t end.
  all: rewrite dev_ret, regfile_readReg_dev, regfile_irqPoll, regfile_clearBitMask,
         regfile_pause, regfile_setBitMask, regfile_writeReg, regfile_burst1,
         !regfile_writeReg.
  all: cbn [regs]; rewrite (store_same _ (BitFramingReg mod 64)).
  all: vm_compute; reflexivity.
Qed.

Lemma store_other f a v r : r <> a -> store f a v r = f r.
Proof. intros H. unfold store. apply Z.eqb_neq in H. now rewrite H. Qed.

Ltac store_at :=
  cbn [regs];
  repeat first [rewrite store_same | rewrite store_other by (vm_compute; discriminate)].

Lemma regfile_anticollision (rf : RegFile) :
  evs (anticollision rf) =
    anticoll_exchange (regs rf 0x0D) (js_or (regs rf 0x0D) 0x80)
      ++ read_transfer FIFOLevelReg 0x80
  /\ res (anticollision rf) = EmptyString
  /\ regs (dev (anticollision rf)) 0x0D =
       js_and (js_or (regs rf 0x0D) 0x80) (js_not 0x80).
Proof.
  unfold anticollision. cbv zeta.
  repeat rewrite ?evs_bind, ?res_bind, ?dev_bind.
  rewrite !writeReg_evs, setBitMask_evs, clearBitMask_evs, readReg_evs.
  rewrite !regfile_readReg_res.
  rewrite ?regfile_clearBitMask, ?regfile_pause, ?regfile_setBitMask.
  rewrite ?regfile_writeReg, ?regfile_burst2, ?regfile_writeReg.
  store_at.
  change (negb (0x80 =? 5)) with true. cbv iota.
  rewrite evs_ret, res_ret, dev_ret, regfile_readReg_dev.
  store_at. rewrite app_nil_r.
  split; [| split; reflexivity].
  unfold anticoll_exchange, start_send, fifo_write, write_frame.
  cbn [map app]. rewrite <- !app_assoc. reflexivity.
Qed.

(** ** The trace of the driver is what the transport saw *)

Section Faithful.
Context {C : Type} {T : Transport C}.

Lemma replay_app t1 t2 (c : C) :
  replay (t1 ++ t2) c =
  match replay t1 c with
  | Some c' => replay t2 c'
  | None => None
  end.
Proof.
  revert c. induction t1 as [| e t1 IH]; intros c; [reflexivity |].
  destruct e as [p level | v | arg v | ms]; cbn [app replay]; try apply IH.
  destruct (fst (on_spiRead arg c) =? v); [apply IH | reflexivity].
Qed.

Lemma faithful_ret {A} (a : A) : faithful (ret (C := C) a).
Proof. intros c. reflexivity. Qed.

Lemma faithful_bind {A B} (m : M C A) (f : A -> M C B) :
  faithful m -> (forall a, faithful (f a)) -> faithful (bind m f).
Proof.
  intros Hm Hf c. rewrite evs_bind, dev_bind, replay_app, Hm. apply Hf.
Qed.

Lemma faithful_digitalWritePin p level : faithful (digitalWritePin p level).
Proof. intros c. reflexivity. Qed.

Lemma faithful_spiWrite v : faithful (spiWrite v).
Proof. intros c. reflexivity. Qed.

Lemma faithful_spiRead arg : faithful (spiRead arg).
Proof.
  intros c. unfold spiRead. cbn [evs dev replay]. now rewrite Z.eqb_refl.
Qed.

Lemma faithful_pause ms : faithful (pause ms).
Proof. intros c. reflexivity. Qed.

Lemma faithful_writeReg addr val : faithful (writeReg addr val).
Proof.
  unfold writeReg. cbv zeta.
  apply faithful_bind; [apply faithful_digitalWritePin | intros _].
  apply faithful_bind; [apply faithful_spiWrite | intros _].
  apply faithful_bind; [apply faithful_spiWrite | intros _].
  apply faithful_digitalWritePin.
Qed.

Lemma faithful_readReg addr : faithful (readReg addr).
Proof.
  unfold readReg. cbv zeta.
  apply faithful_bind; [apply faithful_digitalWritePin | intros _].
  apply faithful_bind; [apply faithful_spiWrite | intros _].
  apply faithful_bind; [apply faithful_spiRead | intros val].
  apply faithful_bind; [apply faithful_digitalWritePin | intros _].
  apply faithful_ret.
Qed.

Lemma faithful_setBitMask addr mask : faithful (setBitMask addr mask).
Proof.
  unfold setBitMask. apply faithful_bind; [apply faithful_readReg |].
  intros current. apply faithful_writeReg.
Qed.

Lemma faithful_clearBitMask addr mask : faithful (clearBitMask addr mask).
Proof.
  unfold clearBitMask. apply faithful_bind; [apply faithful_readReg |].
  intros current. apply faithful_writeReg.
Qed.

Lemma faithful_irqPoll i : faithful (irqPoll i).
Proof.
  induction i as [i IH] using lt_wf_ind.
  assert (Hbody : faithful
            (pause 1 ;;
             irq <- readReg ComIrqReg ;;
             match i with
             | S (S _ as i') => if js_and irq 0x30 =? 0 then irqPoll i' else ret irq
             | _ => ret irq
             end)).
  { apply faithful_bind; [apply faithful_pause |]. intros _.
    apply faithful_bind; [apply faithful_readReg |]. intros irq.
    destruct i as [| [| i']]; [apply faithful_ret | apply faithful_ret |].
    destruct (js_and irq 0x30 =? 0); [apply IH; lia | apply faithful_ret]. }
  intros c. rewrite irqPoll_unfold. apply Hbody.
Qed.

Lemma faithful_readFifo n uid : faithful (readFifo n uid).
Proof.
  revert uid. induction n as [| n IH]; intros uid; cbn [readFifo].
  - apply faithful_ret.
  - apply faithful_bind; [apply faithful_readReg | intros b; apply IH].
Qed.

(** one step of a proof that a driver function is faithful, chosen by the
    shape of the computation *)
Ltac faithful_step :=
  lazymatch goal with
  | |- faithful (bind _ _) => apply faithful_bind; [| intros ?]
  | |- faithful (ret _) => apply faithful_ret
  | |- faithful (digitalWritePin _ _) => apply faithful_digitalWritePin
  | |- faithful (spiWrite _) => apply faithful_spiWrite
  | |- faithful (spiRead _) => apply faithful_spiRead
  | |- faithful (pause _) => apply faithful_pause
  | |- faithful (writeReg _ _) => apply faithful_writeReg
  | |- faithful (readReg _) => apply faithful_readReg
  | |- faithful (setBitMask _ _) => apply faithful_setBitMask
  | |- faithful (clearBitMask _ _) => apply faithful_clearBitMask
  | |- faithful (irqPoll _) => apply faithful_irqPoll
  | |- faithful (readFifo _ _) => apply faithful_readFifo
  | |- faithful (if ?b then _ else _) => destruct b
  end.

Lemma faithful_requestCard reqMode : faithful (requestCard reqMode).
Proof. unfold requestCard. cbv zeta. repeat faithful_step. Qed.

Lemma faithful_anticollision : faithful anticollision.
Proof.
  unfold anticollision. cbv zeta. repeat faithful_step.
Qed.

End Faithful.

(** From here on the driver functions are used through the lemmas above
    only. *)
#[global] Opaque writeReg readReg setBitMask clearBitMask irqPoll requestCard
  readFifo anticollision getID resetWait resetModule.

(** ** What a run of each exchange reads *)

Lemma frames_irq_level : (read_frame ComIrqReg =? read_frame FIFOLevelReg) = false.
Proof. vm_compute. reflexivity. Qed.
Lemma frames_irq_data : (read_frame ComIrqReg =? read_frame FIFODataReg) = false.
Proof. vm_compute. reflexivity. Qed.
Lemma frames_framing_level : (read_frame BitFramingReg =? read_frame FIFOLevelReg) = false.
Proof. vm_compute. reflexivity. Qed.
Lemma frames_framing_data : (read_frame BitFramingReg =? read_frame FIFODataReg) = false.
Proof. vm_compute. reflexivity. Qed.
Lemma frames_framing_irq : (read_frame BitFramingReg =? read_frame ComIrqReg) = false.
Proof. vm_compute. reflexivity. Qed.
Lemma frames_level_data : (read_frame FIFOLevelReg =? read_frame FIFODataReg) = false.
Proof. vm_compute. reflexivity. Qed.
Lemma frames_level_irq : (read_frame FIFOLevelReg =? read_frame ComIrqReg) = false.
Proof. vm_compute. reflexivity. Qed.
Lemma frames_data_level : (read_frame FIFODataReg =? read_frame FIFOLevelReg) = false.
Proof. vm_compute. reflexivity. Qed.
Lemma frames_data_irq : (read_frame FIFODataReg =? read_frame ComIrqReg) = false.
Proof. vm_compute. reflexivity. Qed.

Create Rewrite HintDb frames.
#[export] Hint Rewrite frames_irq_level frames_irq_data frames_framing_level
  frames_framing_data frames_framing_irq frames_level_data frames_level_irq
  frames_data_level frames_data_irq Z.eqb_refl : frames.
#[export] Hint Rewrite reg_reads_request_exchange reg_reads_anticoll_exchange
  reg_reads_irq_polls reg_reads_fifo_reads reg_reads_read_transfer
  app_nil_r : frames.

Ltac read_off :=
  repeat rewrite reg_reads_app
    by (reflexivity || apply pending_irq_polls || apply pending_fifo_reads);
  autorewrite with frames; cbn [app].

Section Summaries.
Context {C : Type} {T : Transport C}.

Lemma requestCard_reads reqMode (c : C) :
  exists irqs lvl,
    reg_reads ComIrqReg (evs (requestCard reqMode c)) = irqs
    /\ polled 25 irqs
    /\ reg_reads FIFOLevelReg (evs (requestCard reqMode c)) = [lvl]
    /\ reg_reads FIFODataReg (evs (requestCard reqMode c)) = []
    /\ pending None (evs (requestCard reqMode c)) = None
    /\ res (requestCard reqMode c) = (if lvl =? 2 then 1 else 0).
Proof.
  destruct (requestCard_run reqMode c) as (x & y & irqs & lvl & Hev & Hres & Hp).
  exists irqs, lvl. rewrite Hev.
  split; [read_off; reflexivity |]. split; [exact Hp |].
  split; [read_off; reflexivity |]. split; [read_off; reflexivity |].
  split; [| exact Hres].
  rewrite !pending_app. reflexivity.
Qed.

Lemma anticollision_reads (c : C) :
  exists lvl bs,
    reg_reads FIFOLevelReg (evs (anticollision c)) = [lvl]
    /\ reg_reads FIFODataReg (evs (anticollision c)) = bs
    /\ reg_reads ComIrqReg (evs (anticollision c)) = []
    /\ List.length bs = (if lvl =? 5 then 5%nat else 0%nat)
    /\ res (anticollision c) = formatUid bs EmptyString.
Proof.
  destruct (anticollision_run c) as (x & y & lvl & bs & Hev & Hres & Hlen).
  exists lvl, bs. rewrite Hev.
  split; [read_off; reflexivity |]. split; [read_off; reflexivity |].
  split; [read_off; reflexivity |]. split; [exact Hlen | exact Hres].
Qed.

Lemma requestCard_present reqMode (c : C) :
  res (requestCard reqMode c) = 1 <->
  reg_reads FIFOLevelReg (evs (requestCard reqMode c)) = [2].
Proof.
  destruct (requestCard_reads reqMode c) as (irqs & lvl & _ & _ & Hl & _ & _ & Hres).
  rewrite Hl, Hres. destruct (Z.eqb_spec lvl 2) as [-> | Hne].
  - split; reflexivity.
  - split; [intros [=] | intros [= ?]; contradiction].
Qed.
End Summaries.

(** * The claims *)

(** ** Register access layer *)

(** C6: for every register address, [writeReg] puts chip-select low, sends
    the frame byte [(address << 1) & 0x7E] and then the value, and puts
    chip-select high; [readReg] puts chip-select low, sends
    [((address << 1) & 0x7E) | 0x80], receives one byte, puts chip-select
    high and returns exactly the byte received.  The write frame is twice
    the low six bits of the address (top bit 0), the read frame the same
    with the top bit set.  The transport is left in the state these calls
    put it in, in that order: selected, frame byte, value written or byte
    read, released. *)
Theorem register_access_frames {C} {T : Transport C} (c : C) (address value : Z) :
  evs (writeReg address value c) =
    [EvPin NSS 0; EvSpiWrite (js_and (js_shl address 1) 0x7E);
     EvSpiWrite value; EvPin NSS 1]
  /\ evs (readReg address c) =
       [EvPin NSS 0; EvSpiWrite (js_or (js_and (js_shl address 1) 0x7E) 0x80);
        EvSpiRead 0 (res (readReg address c)); EvPin NSS 1]
  /\ res (readReg address c) =
       fst (on_spiRead 0
              (on_spiWrite (js_or (js_and (js_shl address 1) 0x7E) 0x80)
                 (on_pin NSS 0 c)))
  /\ js_and (js_shl address 1) 0x7E = 2 * (address mod 64)
  /\ js_or (js_and (js_shl address 1) 0x7E) 0x80 = 2 * (address mod 64) + 128
  /\ dev (writeReg address value c) =
       on_pin NSS 1
         (on_spiWrite value
            (on_spiWrite (js_and (js_shl address 1) 0x7E) (on_pin NSS 0 c)))
  /\ dev (readReg address c) =
       on_pin NSS 1
         (snd (on_spiRead 0
                 (on_spiWrite (js_or (js_and (js_shl address 1) 0x7E) 0x80)
                    (on_pin NSS 0 c)))).
Proof.
  split; [| split; [| split; [| split; [| split; [| split]]]]].
  - rewrite writeReg_evs. unfold write_transfer, write_frame. reflexivity.
  - rewrite readReg_evs. unfold read_transfer, read_frame. reflexivity.
  - rewrite readReg_res. unfold read_frame. reflexivity.
  - apply write_frame_closed.
  - apply read_frame_closed.
  - rewrite writeReg_dev. unfold write_frame. reflexivity.
  - rewrite readReg_dev. unfold read_frame. reflexivity.
Qed.

(** ** Bit-mask helpers, against the register file *)

(** C7: [setBitMask] is idempotent: against a register file whose reads
    return the last written value, running [setBitMask a m] twice leaves
    every register, the one addressed included, with the value it has after
    running it once. *)
Theorem setBitMask_idempotent (rf : RegFile) (a m r : Z) :
  regs (dev ((setBitMask a m ;; setBitMask a m) rf)) r =
  regs (dev (setBitMask a m rf)) r.
Proof.
  rewrite dev_bind, !regfile_setBitMask. cbn [regs].
  rewrite store_same, store_store, js_or_absorb. reflexivity.
Qed.

(** C8: against the register file, with a mask and a register value in the
    integer range of the bitwise operators (bytes are), [clearBitMask a m]
    followed by [setBitMask a m] leaves in the register addressed every bit
    of [m] set and every other bit as it was, and leaves the other
    registers alone. *)
Theorem clearBitMask_then_setBitMask (rf : RegFile) (a m : Z) :
  is_int32 m ->
  is_int32 (regs rf (a mod 64)) ->
  let after := dev ((clearBitMask a m ;; setBitMask a m) rf) in
  (forall i, 0 <= i ->
     Z.testbit (regs after (a mod 64)) i =
     if Z.testbit m i then true else Z.testbit (regs rf (a mod 64)) i)
  /\ (forall r, r <> a mod 64 -> regs after r = regs rf r).
Proof.
  intros Hm Hv after. subst after.
  rewrite dev_bind, regfile_setBitMask, regfile_clearBitMask. cbn [regs].
  split.
  - intros i Hi. rewrite store_same, store_same, js_clear_then_set by assumption.
    rewrite Z.lor_spec. now destruct (Z.testbit m i), (Z.testbit (regs rf (a mod 64)) i).
  - intros r Hr. unfold store. apply Z.eqb_neq in Hr. now rewrite Hr.
Qed.

Lemma clearBitMask_then_setBitMask_witness :
  (forall i, 0 <= i ->
     Z.testbit
       (regs (dev ((clearBitMask BitFramingReg 0x80 ;; setBitMask BitFramingReg 0x80)
                     framing_file)) 0x0D) i =
     if Z.testbit 0x80 i then true else Z.testbit 0x47 i)
  /\ (forall r, r <> 0x0D ->
      regs (dev ((clearBitMask BitFramingReg 0x80 ;; setBitMask BitFramingReg 0x80)
                   framing_file)) r =
      regs framing_file r).
Proof.
  apply (clearBitMask_then_setBitMask framing_file BitFramingReg 0x80).
  - unfold is_int32. lia.
  - unfold is_int32. simpl. lia.
Defined.

(** ** Presence poll *)

(** C4: whatever the chip answers, the bus traffic of [requestCard reqMode]
    is the request exchange up to the Transceive command and the StartSend
    toggle, then between 1 and 25 polls of ComIrqReg, none after a poll
    showing a bit of mask 0x30 and fewer than 25 only if the last one
    shows such a bit, then one read of FIFOLevelReg; the result is 1 if
    that read is 2 and 0 otherwise.  This traffic is what passed between
    the driver and the chip: replayed on the chip the call started with,
    every value in it is the chip's answer at that point, and the chip
    ends in the state the call returns. *)
Theorem requestCard_polls {C} {T : Transport C} (c : C) (reqMode : Z) :
  exists x y irqs lvl,
    evs (requestCard reqMode c) =
      request_exchange reqMode x y ++ irq_polls irqs
        ++ read_transfer FIFOLevelReg lvl
    /\ polled 25 irqs
    /\ reg_reads ComIrqReg (evs (requestCard reqMode c)) = irqs
    /\ reg_reads FIFOLevelReg (evs (requestCard reqMode c)) = [lvl]
    /\ res (requestCard reqMode c) = (if lvl =? 2 then 1 else 0)
    /\ replay (evs (requestCard reqMode c)) c = Some (dev (requestCard reqMode c)).
Proof.
  pose proof (faithful_requestCard reqMode c) as Hreplay.
  destruct (requestCard_run reqMode c) as (x & y & irqs & lvl & Hev & Hres & Hp).
  exists x, y, irqs, lvl. rewrite Hev in *.
  split; [reflexivity |]. split; [exact Hp |].
  split; [read_off; reflexivity |]. split; [read_off; reflexivity |].
  split; [exact Hres | exact Hreplay].
Qed.



(** ** Anti-collision and the public block *)

(** C10: the bus traffic of [anticollision] is the anti-collision exchange,
    one read of FIFOLevelReg and then reads of FIFODataReg only: exactly 5
    when the level read is 5, and none at all, with the empty string
    returned, when it is not.  Replayed on the chip the call started with,
    every value in this traffic is the chip's answer at that point, and
    the chip ends in the state the call returns. *)
Theorem anticollision_fifo_reads {C} {T : Transport C} (c : C) :
  exists x y lvl bs,
    evs (anticollision c) =
      anticoll_exchange x y ++ read_transfer FIFOLevelReg lvl ++ fifo_reads bs
    /\ reg_reads FIFOLevelReg (evs (anticollision c)) = [lvl]
    /\ reg_reads FIFODataReg (evs (anticollision c)) = bs
    /\ (if lvl =? 5 then List.length bs = 5%nat
        else bs = [] /\ res (anticollision c) = EmptyString)
    /\ replay (evs (anticollision c)) c = Some (dev (anticollision c)).
Proof.
  pose proof (faithful_anticollision c) as Hreplay.
  destruct (anticollision_run c) as (x & y & lvl & bs & Hev & Hres & Hlen).
  exists x, y, lvl, bs. rewrite Hev in *. rewrite Hres.
  split; [reflexivity |]. split; [read_off; reflexivity |].
  split; [read_off; reflexivity |]. split; [| exact Hreplay].
  destruct (lvl =? 5); [exact Hlen |].
  destruct bs; [split; reflexivity | discriminate Hlen].
Qed.

(** C3: [requestCard] returns 1 exactly when its read of FIFOLevelReg is 2;
    in every run where it does not, [getID] returns the empty string and
    nothing follows the presence poll on the bus: the trace and the final
    state of the transport are those of [requestCard] alone, without any
    read of FIFODataReg. *)
Theorem getID_without_card {C} {T : Transport C} (c : C) :
  (res (requestCard PICC_REQIDL c) = 1 <->
   reg_reads FIFOLevelReg (evs (requestCard PICC_REQIDL c)) = [2])
  /\ (res (requestCard PICC_REQIDL c) <> 1 ->
      res (getID c) = EmptyString
      /\ evs (getID c) = evs (requestCard PICC_REQIDL c)
      /\ dev (getID c) = dev (requestCard PICC_REQIDL c)
      /\ reg_reads FIFODataReg (evs (getID c)) = []).
Proof.
  split; [apply requestCard_present |].
  intros Habs. destruct (getID_absent c Habs) as (Hres & Hev & Hdev).
  split; [exact Hres |]. split; [exact Hev |]. split; [exact Hdev |].
  rewrite Hev.
  destruct (requestCard_reads PICC_REQIDL c) as (? & ? & _ & _ & _ & H & _).
  exact H.
Qed.

Lemma getID_without_card_witness :
  res (getID (script [0; 0x80; 0x30; 4] 7)) = EmptyString
  /\ evs (getID (script [0; 0x80; 0x30; 4] 7)) =
     evs (requestCard PICC_REQIDL (script [0; 0x80; 0x30; 4] 7))
  /\ dev (getID (script [0; 0x80; 0x30; 4] 7)) =
     dev (requestCard PICC_REQIDL (script [0; 0x80; 0x30; 4] 7))
  /\ reg_reads FIFODataReg (evs (getID (script [0; 0x80; 0x30; 4] 7))) = [].
Proof.
  apply (getID_without_card (script [0; 0x80; 0x30; 4] 7)).
  vm_compute. discriminate.
Defined.

Section GetID.
Context {C : Type} {T : Transport C}.

Lemma getID_reads (c : C) :
  (exists lvl,
      lvl <> 2
      /\ reg_reads FIFOLevelReg (evs (getID c)) = [lvl]
      /\ reg_reads FIFODataReg (evs (getID c)) = []
      /\ res (getID c) = EmptyString)
  \/ (exists lvl bs,
         reg_reads FIFOLevelReg (evs (getID c)) = [2; lvl]
         /\ reg_reads FIFODataReg (evs (getID c)) = bs
         /\ List.length bs = (if lvl =? 5 then 5%nat else 0%nat)
         /\ res (getID c) = formatUid bs EmptyString
         /\ (byte_reads (evs (getID c)) -> Forall is_byte bs)).
Proof.
  destruct (requestCard_reads PICC_REQIDL c)
    as (irqs & lvl & _ & _ & Hl & Hd & Hpend & Hres).
  destruct (Z.eqb_spec lvl 2) as [-> | Hne].
  - right. destruct (getID_present c Hres) as [Hr Hev].
    destruct (anticollision_run (dev (requestCard PICC_REQIDL c)))
      as (x & y & lvl' & bs & Hev' & Hres' & Hlen).
    exists lvl', bs. rewrite Hr, Hev.
    rewrite !reg_reads_app, Hl, Hd by exact Hpend. rewrite Hev'.
    split; [read_off; reflexivity |]. split; [read_off; reflexivity |].
    split; [exact Hlen |]. split; [exact Hres' |].
    intros Hb. apply byte_reads_app in Hb as [_ Hb].
    apply byte_reads_app in Hb as [_ Hb]. apply byte_reads_app in Hb as [_ Hb].
    apply byte_reads_fifo_reads. exact Hb.
  - left. exists lvl.
    assert (Habs : res (requestCard PICC_REQIDL c) <> 1).
    { rewrite Hres. destruct (Z.eqb_spec lvl 2); [contradiction | discriminate]. }
    destruct (getID_absent c Habs) as (Hr & Hev & _).
    rewrite Hev. split; [exact Hne |]. split; [exact Hl |].
    split; [exact Hd | exact Hr].
Qed.
End GetID.



(** C2: a run of [anticollision] makes one read of FIFOLevelReg, and
    returns the empty string whenever that read is not 5; so does [getID]
    when the presence poll read 2.  Provided the values the bus hands
    back are bytes, the result of [getID] is either the empty string or 10
    characters, all of them digits or capital A to F. *)
Theorem getID_no_partial_uid {C} {T : Transport C} (c : C) :
  (exists lvl,
      reg_reads FIFOLevelReg (evs (anticollision c)) = [lvl]
      /\ (lvl <> 5 -> res (anticollision c) = EmptyString))
  /\ (forall lvl,
        reg_reads FIFOLevelReg (evs (getID c)) = [2; lvl] -> lvl <> 5 ->
        res (getID c) = EmptyString)
  /\ (byte_reads (evs (getID c)) ->
      res (getID c) = EmptyString
      \/ (String.length (res (getID c)) = 10%nat
          /\ all_chars is_upper_hex (res (getID c)) = true)).
Proof.
  split; [| split].
  - destruct (anticollision_reads c) as (lvl & bs & Hl & _ & _ & Hlen & Hres).
    exists lvl. split; [exact Hl |]. intros Hne. apply Z.eqb_neq in Hne.
    rewrite Hne in Hlen. rewrite Hres.
    destruct bs; [reflexivity | discriminate Hlen].
  - intros lvl Hl Hne.
    destruct (getID_reads c) as [(l & _ & Hl' & _) | (l & bs & Hl' & _ & Hlen & Hres & _)];
      rewrite Hl in Hl'; [discriminate Hl' |].
    injection Hl' as <-. apply Z.eqb_neq in Hne.
    rewrite Hne in Hlen. rewrite Hres.
    destruct bs; [reflexivity | discriminate Hlen].
  - intros Hbytes.
    destruct (getID_reads c) as [(l & _ & _ & _ & Hres) | (l & bs & _ & _ & Hlen & Hres & Hb)].
    + left. exact Hres.
    + specialize (Hb Hbytes). rewrite Hres, formatUid_hex_uid by exact Hb.
      cbn [append]. destruct (l =? 5).
      * right. rewrite hex_uid_length, Hlen. split; [reflexivity |].
        apply hex_uid_upper. exact Hb.
      * left. destruct bs; [reflexivity | discriminate Hlen].
Qed.

Lemma getID_no_partial_uid_witness :
  (exists lvl,
      reg_reads FIFOLevelReg (evs (anticollision (script [0; 0x80; 7] 9))) = [lvl]
      /\ (lvl <> 5 -> res (anticollision (script [0; 0x80; 7] 9)) = EmptyString))
  /\ res (getID (script [0; 0x80; 0x30; 2; 0; 0x80; 4] 9)) = EmptyString
  /\ (res (getID clean_card) = EmptyString
      \/ (String.length (res (getID clean_card)) = 10%nat
          /\ all_chars is_upper_hex (res (getID clean_card)) = true)).
Proof.
  split; [| split].
  - apply (getID_no_partial_uid (script [0; 0x80; 7] 9)).
  - apply (proj1 (proj2 (getID_no_partial_uid
                           (script [0; 0x80; 0x30; 2; 0; 0x80; 4] 9))) 4).
    + vm_compute. reflexivity.
    + lia.
  - apply (proj2 (proj2 (getID_no_partial_uid clean_card))).
    vm_compute. repeat split; discriminate.
Defined.

(** ** Soft reset *)



(** * Further properties of the driver *)

(** ** Register access and bit masks on the register file *)

Lemma js_not_range m : is_int32 (js_not m).
Proof. apply lnot_int32, to_int32_range. Qed.

Lemma js_and_low_bits a b i :
  0 <= i < 32 -> Z.testbit (js_and a b) i = Z.testbit a i && Z.testbit b i.
Proof.
  intros Hi. unfold js_and. now rewrite Z.land_spec, !to_int32_low_bits.
Qed.

Lemma js_or_low_bits a b i :
  0 <= i < 32 -> Z.testbit (js_or a b) i = Z.testbit a i || Z.testbit b i.
Proof.
  intros Hi. unfold js_or. now rewrite Z.lor_spec, !to_int32_low_bits.
Qed.

Lemma js_not_low_bits a i :
  0 <= i < 32 -> Z.testbit (js_not a) i = negb (Z.testbit a i).
Proof.
  intros Hi. unfold js_not. rewrite Z.lnot_spec by lia.
  now rewrite to_int32_low_bits.
Qed.

Lemma js_clear_absorb v m : js_and (js_and v (js_not m)) (js_not m) = js_and v (js_not m).
Proof.
  unfold js_and at 1. rewrite (to_int32_id (js_and v (js_not m))) by apply js_and_range.
  unfold js_and. now rewrite <- Z.land_assoc, Z.land_diag.
Qed.

Lemma js_set_then_clear v m : js_and (js_or v m) (js_not m) = js_and v (js_not m).
Proof.
  unfold js_and. rewrite (to_int32_id (js_or v m)) by apply js_or_range.
  rewrite (to_int32_id (js_not m)) by apply js_not_range.
  unfold js_or, js_not. apply Z.bits_inj'. intros i Hi.
  rewrite !Z.land_spec, Z.lor_spec, Z.lnot_spec by lia.
  now destruct (Z.testbit (to_int32 v) i), (Z.testbit (to_int32 m) i).
Qed.

(** X1: on the register file a value written with [writeReg] is what
    [readReg] returns next, under the same address or any address with
    the same low six bits; a read of another register returns what that
    register held before, and a read changes no register. *)
Theorem writeReg_then_readReg (rf : RegFile) (a a' v : Z) :
  res (readReg a' (dev (writeReg a v rf))) =
    (if a' mod 64 =? a mod 64 then v else regs rf (a' mod 64))
  /\ regs (dev (readReg a' rf)) = regs rf.
Proof.
  destruct (regfile_readReg a' (dev (writeReg a v rf))) as [-> _].
  destruct (regfile_readReg a' rf) as [_ ->].
  rewrite regfile_writeReg. split; reflexivity.
Qed.

(** X2: [clearBitMask] is idempotent on the register file, and clearing
    after setting the same mask leaves what clearing alone leaves, in
    every register and for every mask and contents. *)
Theorem clearBitMask_absorbs (rf : RegFile) (a m r : Z) :
  regs (dev ((clearBitMask a m ;; clearBitMask a m) rf)) r =
    regs (dev (clearBitMask a m rf)) r
  /\ regs (dev ((setBitMask a m ;; clearBitMask a m) rf)) r =
       regs (dev (clearBitMask a m rf)) r.
Proof.
  rewrite !dev_bind, !regfile_clearBitMask, regfile_setBitMask. cbn [regs].
  rewrite !store_same, !store_store, js_clear_absorb, js_set_then_clear.
  split; reflexivity.
Qed.

(** X3: what one call does to the register addressed, for any mask and
    contents: the new value is a 32-bit integer whose bits 0 to 31 are
    those of the old value with the bits of the mask set ([setBitMask]),
    respectively cleared ([clearBitMask]); no other register changes. *)
Theorem bit_mask_effect (rf : RegFile) (a m : Z) :
  (is_int32 (regs (dev (setBitMask a m rf)) (a mod 64))
   /\ forall i, 0 <= i < 32 ->
        Z.testbit (regs (dev (setBitMask a m rf)) (a mod 64)) i =
        Z.testbit (regs rf (a mod 64)) i || Z.testbit m i)
  /\ (is_int32 (regs (dev (clearBitMask a m rf)) (a mod 64))
      /\ forall i, 0 <= i < 32 ->
           Z.testbit (regs (dev (clearBitMask a m rf)) (a mod 64)) i =
           Z.testbit (regs rf (a mod 64)) i && negb (Z.testbit m i))
  /\ (forall r, r <> a mod 64 ->
        regs (dev (setBitMask a m rf)) r = regs rf r
        /\ regs (dev (clearBitMask a m rf)) r = regs rf r).
Proof.
  rewrite regfile_setBitMask, regfile_clearBitMask. cbn [regs].
  rewrite !store_same. split; [| split].
  - split; [apply js_or_range |]. intros i Hi. now apply js_or_low_bits.
  - split; [apply js_and_range |]. intros i Hi.
    now rewrite js_and_low_bits, js_not_low_bits.
  - intros r Hr. unfold store. apply Z.eqb_neq in Hr. rewrite Hr.
    split; reflexivity.
Qed.

Lemma bit_mask_effect_witness :
  (forall i, 0 <= i < 32 ->
     Z.testbit (regs (dev (setBitMask BitFramingReg 0x80 framing_file)) 0x0D) i =
     Z.testbit 0x47 i || Z.testbit 0x80 i)
  /\ (forall r, r <> 0x0D ->
        regs (dev (setBitMask BitFramingReg 0x80 framing_file)) r = regs framing_file r
        /\ regs (dev (clearBitMask BitFramingReg 0x80 framing_file)) r =
           regs framing_file r).
Proof.
  split.
  - apply (bit_mask_effect framing_file BitFramingReg 0x80).
  - apply (bit_mask_effect framing_file BitFramingReg 0x80).
Defined.

(** ** Switching the antenna on *)

Lemma testbit_3 i : 0 <= i -> Z.testbit 3 i = (i <? 2).
Proof.
  intros Hi. change 3 with (Z.ones 2). rewrite Z.testbit_ones by lia.
  apply Z.leb_le in Hi. now rewrite Hi.
Qed.

Lemma land_3_full v : Z.land v 3 = 3 <-> Z.testbit v 0 = true /\ Z.testbit v 1 = true.
Proof.
  split.
  - intros H. split.
    + assert (Hb : Z.testbit (Z.land v 3) 0 = true) by now rewrite H.
      rewrite Z.land_spec in Hb. now apply andb_prop in Hb.
    + assert (Hb : Z.testbit (Z.land v 3) 1 = true) by now rewrite H.
      rewrite Z.land_spec in Hb. now apply andb_prop in Hb.
  - intros [H0 H1]. apply Z.bits_inj'. intros i Hi.
    rewrite Z.land_spec, testbit_3 by lia.
    destruct (Z.ltb_spec i 2) as [Hlt | _]; [| apply andb_false_r].
    assert (i = 0 \/ i = 1) as [-> | ->] by lia; now rewrite ?H0, ?H1.
Qed.

Lemma antennaOn_test v : negb (js_and v 0x03 =? 0x03) = negb (Z.land v 3 =? 3).
Proof. now rewrite js_and_low by lia. Qed.

Lemma antennaOn_regfile (rf : RegFile) :
  dev (antennaOn rf) =
    (if Z.land (regs rf 0x14) 3 =? 3
     then mkRegFile (regs rf) Deselected
     else mkRegFile (store (regs rf) 0x14 (js_or (regs rf 0x14) 3)) Deselected)
  /\ evs (antennaOn rf) =
       read_transfer TxControlReg (regs rf 0x14)
         ++ (if Z.land (regs rf 0x14) 3 =? 3 then []
             else read_transfer TxControlReg (regs rf 0x14)
                    ++ write_transfer TxControlReg (js_or (regs rf 0x14) 3)).
Proof.
  unfold antennaOn. rewrite dev_bind, evs_bind, readReg_evs.
  destruct (regfile_readReg TxControlReg rf) as [Hres Hdev].
  change (TxControlReg mod 64) with 0x14 in Hres. rewrite Hres, Hdev, antennaOn_test.
  destruct (Z.land (regs rf 0x14) 3 =? 3); cbn [negb].
  - split; reflexivity.
  - rewrite regfile_setBitMask, setBitMask_evs.
    destruct (regfile_readReg TxControlReg (mkRegFile (regs rf) Deselected)) as [-> _].
    split; reflexivity.
Qed.

Lemma antenna_bits_set v :
  Z.land v 3 <> 3 -> Z.land (js_or v 3) 3 = 3.
Proof.
  intros _. apply land_3_full.
  rewrite !js_or_low_bits by lia. split; apply orb_true_r.
Qed.

(** X5: on the register file [antennaOn] leaves TxControlReg with bits 0
    and 1 set and bits 2 to 31 as they were, and changes no other
    register; run again it only reads the register, and leaves every
    register as the first run left it. *)
Theorem antennaOn_idempotent (rf : RegFile) :
  (forall i, 0 <= i < 32 ->
     Z.testbit (regs (dev (antennaOn rf)) 0x14) i =
     Z.testbit (regs rf 0x14) i || (i <? 2))
  /\ (forall r, r <> 0x14 -> regs (dev (antennaOn rf)) r = regs rf r)
  /\ evs (antennaOn (dev (antennaOn rf))) =
       read_transfer TxControlReg (regs (dev (antennaOn rf)) 0x14)
  /\ regs (dev (antennaOn (dev (antennaOn rf)))) = regs (dev (antennaOn rf)).
Proof.
  assert (Hon : Z.land (regs (dev (antennaOn rf)) 0x14) 3 = 3).
  { destruct (antennaOn_regfile rf) as [-> _].
    destruct (Z.eqb_spec (Z.land (regs rf 0x14) 3) 3) as [E | E]; cbn [regs].
    - exact E.
    - rewrite store_same. apply antenna_bits_set. exact E. }
  split; [| split; [| split]].
  - intros i Hi. destruct (antennaOn_regfile rf) as [-> _].
    destruct (Z.eqb_spec (Z.land (regs rf 0x14) 3) 3) as [E | E]; cbn [regs].
    + apply land_3_full in E as [E0 E1].
      destruct (Z.ltb_spec i 2) as [Hlt | _]; [| now rewrite orb_false_r].
      assert (i = 0 \/ i = 1) as [-> | ->] by lia; now rewrite ?E0, ?E1.
    + rewrite store_same, js_or_low_bits, testbit_3 by lia. reflexivity.
  - intros r Hr. destruct (antennaOn_regfile rf) as [-> _].
    destruct (Z.land (regs rf 0x14) 3 =? 3); cbn [regs]; [reflexivity |].
    unfold store. apply Z.eqb_neq in Hr. now rewrite Hr.
  - destruct (antennaOn_regfile (dev (antennaOn rf))) as [_ ->].
    rewrite Hon, Z.eqb_refl. apply app_nil_r.
  - destruct (antennaOn_regfile (dev (antennaOn rf))) as [-> _].
    rewrite Hon, Z.eqb_refl. reflexivity.
Qed.

Lemma antennaOn_idempotent_witness :
  (forall i, 0 <= i < 32 ->
     Z.testbit (regs (dev (antennaOn framing_file)) 0x14) i =
     Z.testbit (regs framing_file 0x14) i || (i <? 2))
  /\ (forall r, r <> 0x14 -> regs (dev (antennaOn framing_file)) r = regs framing_file r).
Proof.
  split.
  - apply (antennaOn_idempotent framing_file).
  - apply (antennaOn_idempotent framing_file).
Defined.

(** ** Chip-select discipline and bounds on a poll *)

Lemma cs_ok_app s t1 t2 :
  cs_ok s t1 = true -> cs_ok false t2 = true -> cs_ok s (t1 ++ t2) = true.
Proof.
  revert s. induction t1 as [| e t1 IH]; intros s H1 H2.
  - cbn in H1. destruct s; [discriminate H1 | exact H2].
  - destruct e as [p level | v | arg v | ms]; cbn [app cs_ok] in *.
    + destruct (pin_is_NSS p); [destruct (level =? 0) |]; auto.
      apply andb_prop in H1 as [-> H1]. cbn [andb]. auto.
    + apply andb_prop in H1 as [-> H1]. cbn [andb]. auto.
    + apply andb_prop in H1 as [-> H1]. cbn [andb]. auto.
    + apply andb_prop in H1 as [-> H1]. cbn [andb]. auto.
Qed.

Lemma cs_ok_flat_map {A} (f : A -> list Event) l :
  (forall a, cs_ok false (f a) = true) -> cs_ok false (flat_map f l) = true.
Proof.
  intros Hf. induction l as [| a l IH]; [reflexivity |].
  cbn [flat_map]. now apply cs_ok_app.
Qed.

Lemma cs_ok_write_transfer a v : cs_ok false (write_transfer a v) = true.
Proof. reflexivity. Qed.
Lemma cs_ok_read_transfer a v : cs_ok false (read_transfer a v) = true.
Proof. reflexivity. Qed.
Lemma cs_ok_request_exchange reqMode x y :
  cs_ok false (request_exchange reqMode x y) = true.
Proof. reflexivity. Qed.
Lemma cs_ok_anticoll_exchange x y : cs_ok false (anticoll_exchange x y) = true.
Proof. reflexivity. Qed.
Lemma cs_ok_irq_polls irqs : cs_ok false (irq_polls irqs) = true.
Proof. now apply cs_ok_flat_map. Qed.
Lemma cs_ok_fifo_reads bs : cs_ok false (fifo_reads bs) = true.
Proof. now apply cs_ok_flat_map. Qed.
Lemma cs_ok_busy_polls vs : cs_ok false (busy_polls vs) = true.
Proof. now apply cs_ok_flat_map. Qed.

Create HintDb bus.
#[export] Hint Resolve cs_ok_app cs_ok_write_transfer cs_ok_read_transfer
  cs_ok_request_exchange cs_ok_anticoll_exchange cs_ok_irq_polls
  cs_ok_fifo_reads cs_ok_busy_polls : bus.

Section Discipline.
Context {C : Type} {T : Transport C}.

Lemma cs_ok_requestCard reqMode (c : C) : cs_ok false (evs (requestCard reqMode c)) = true.
Proof.
  destruct (requestCard_run reqMode c) as (x & y & irqs & lvl & -> & _).
  auto with bus.
Qed.

Lemma cs_ok_anticollision (c : C) : cs_ok false (evs (anticollision c)) = true.
Proof.
  destruct (anticollision_run c) as (x & y & lvl & bs & -> & _).
  auto with bus.
Qed.

Lemma cs_ok_getID (c : C) : cs_ok false (evs (getID c)) = true.
Proof.
  destruct (Z.eq_dec (res (requestCard PICC_REQIDL c)) 1) as [E | E].
  - destruct (getID_present c E) as [_ ->].
    apply cs_ok_app; [apply cs_ok_requestCard | apply cs_ok_anticollision].
  - destruct (getID_absent c E) as (_ & -> & _). apply cs_ok_requestCard.
Qed.

Lemma cs_ok_resetModule fuel (c : C) : cs_ok false (evs (resetModule fuel c)) = true.
Proof.
  rewrite resetModule_evs.
  apply cs_ok_app; [apply cs_ok_write_transfer |]. cbn [cs_ok negb andb].
  destruct (resetWait_run fuel (afterSoftReset c))
    as (vs & _ & [(v & _ & _ & _ & ->) | (_ & _ & ->)]); auto with bus.
Qed.

Lemma cs_ok_antennaOn (c : C) : cs_ok false (evs (antennaOn c)) = true.
Proof.
  unfold antennaOn. rewrite evs_bind, readReg_evs.
  apply cs_ok_app; [apply cs_ok_read_transfer |].
  destruct (negb (js_and (res (readReg TxControlReg c)) 3 =? 3)); [| reflexivity].
  rewrite setBitMask_evs. auto with bus.
Qed.
End Discipline.

Lemma cs_ok_Init {C} {T : Transport C} fuel (b : Board C) :
  cs_ok false (evs (Init fuel b)) = true.
Proof.
  rewrite Init_evs. cbn [app cs_ok pin_is_NSS NSS RST Z.eqb].
  apply cs_ok_app; [apply cs_ok_resetModule |].
  destruct (res (resetModule fuel (afterSetup b))); [| reflexivity].
  apply cs_ok_app; [reflexivity | apply cs_ok_antennaOn].
Qed.

(** X6: whatever the chip answers and whatever the poll budget, the bus
    traffic of [requestCard], [anticollision], [getID], [resetModule],
    [antennaOn] and [Init] keeps the chip-select discipline: NSS is driven
    low only when it is high, bytes are written and read only while it is
    low, every pause is taken with it high, and it is high at the end. *)
Theorem chip_select_discipline {C} {T : Transport C} (c : C) (b : Board C)
    (reqMode : Z) (fuel : nat) :
  cs_ok false (evs (requestCard reqMode c)) = true
  /\ cs_ok false (evs (anticollision c)) = true
  /\ cs_ok false (evs (getID c)) = true
  /\ cs_ok false (evs (resetModule fuel c)) = true
  /\ cs_ok false (evs (antennaOn c)) = true
  /\ cs_ok false (evs (Init fuel b)) = true.
Proof.
  split; [apply cs_ok_requestCard |]. split; [apply cs_ok_anticollision |].
  split; [apply cs_ok_getID |]. split; [apply cs_ok_resetModule |].
  split; [apply cs_ok_antennaOn | apply cs_ok_Init].
Qed.

Lemma pause_total_app t1 t2 : pause_total (t1 ++ t2) = pause_total t1 + pause_total t2.
Proof.
  induction t1 as [| e t1 IH]; [reflexivity |].
  destruct e; cbn [app pause_total]; lia.
Qed.

Lemma spi_reads_app t1 t2 : spi_reads (t1 ++ t2) = (spi_reads t1 + spi_reads t2)%nat.
Proof.
  induction t1 as [| e t1 IH]; [reflexivity |].
  destruct e; cbn [app spi_reads]; lia.
Qed.

Lemma pause_total_irq_polls irqs :
  pause_total (irq_polls irqs) = Z.of_nat (List.length irqs).
Proof.
  induction irqs as [| v irqs IH]; [reflexivity |].
  cbn [irq_polls flat_map]. fold (irq_polls irqs).
  rewrite pause_total_app, IH. cbn [pause_total read_transfer List.length]. lia.
Qed.

Lemma spi_reads_irq_polls irqs : spi_reads (irq_polls irqs) = List.length irqs.
Proof.
  induction irqs as [| v irqs IH]; [reflexivity |].
  cbn [irq_polls flat_map]. fold (irq_polls irqs).
  rewrite spi_reads_app, IH. reflexivity.
Qed.

Lemma pause_total_fifo_reads bs : pause_total (fifo_reads bs) = 0.
Proof.
  induction bs as [| b bs IH]; [reflexivity |].
  cbn [fifo_reads flat_map]. fold (fifo_reads bs).
  rewrite pause_total_app, IH. reflexivity.
Qed.

Lemma spi_reads_fifo_reads bs : spi_reads (fifo_reads bs) = List.length bs.
Proof.
  induction bs as [| b bs IH]; [reflexivity |].
  cbn [fifo_reads flat_map]. fold (fifo_reads bs).
  rewrite spi_reads_app, IH. reflexivity.
Qed.

Lemma polled_length budget irqs :
  polled budget irqs -> (1 <= List.length irqs <= budget)%nat.
Proof.
  intros (pre & fin & -> & Hlen & _). rewrite length_app in *. cbn [List.length] in *. lia.
Qed.

Lemma cost_request_exchange reqMode x y :
  pause_total (request_exchange reqMode x y) = 10
  /\ spi_reads (request_exchange reqMode x y) = 2%nat.
Proof. split; reflexivity. Qed.

Lemma cost_anticoll_exchange x y :
  pause_total (anticoll_exchange x y) = 10
  /\ spi_reads (anticoll_exchange x y) = 2%nat.
Proof. split; reflexivity. Qed.

Lemma cost_read_transfer a v :
  pause_total (read_transfer a v) = 0 /\ spi_reads (read_transfer a v) = 1%nat.
Proof. split; reflexivity. Qed.

Section Bounds.
Context {C : Type} {T : Transport C}.

Lemma requestCard_cost reqMode (c : C) :
  exists n, (1 <= n <= 25)%nat
    /\ pause_total (evs (requestCard reqMode c)) = 10 + Z.of_nat n
    /\ spi_reads (evs (requestCard reqMode c)) = (3 + n)%nat.
Proof.
  destruct (requestCard_run reqMode c) as (x & y & irqs & lvl & -> & _ & Hp).
  exists (List.length irqs). split; [now apply polled_length |].
  rewrite !pause_total_app, !spi_reads_app, pause_total_irq_polls, spi_reads_irq_polls.
  destruct (cost_request_exchange reqMode x y) as [-> ->].
  destruct (cost_read_transfer FIFOLevelReg lvl) as [-> ->].
  split; lia.
Qed.

Lemma anticollision_cost (c : C) :
  pause_total (evs (anticollision c)) = 10
  /\ (spi_reads (evs (anticollision c)) = 3 \/ spi_reads (evs (anticollision c)) = 8)%nat.
Proof.
  destruct (anticollision_run c) as (x & y & lvl & bs & -> & _ & Hlen).
  rewrite !pause_total_app, !spi_reads_app, pause_total_fifo_reads, spi_reads_fifo_reads.
  destruct (cost_anticoll_exchange x y) as [-> ->].
  destruct (cost_read_transfer FIFOLevelReg lvl) as [-> ->].
  split; [reflexivity |].
  rewrite Hlen. destruct (lvl =? 5); [right | left]; reflexivity.
Qed.
End Bounds.

(** X7: a call of [getID] always comes back after a bounded amount of
    work, whatever the chip answers: it pauses between 11 and 45 units in
    all and calls [pins.spiRead] between 4 and 36 times; the presence
    poll alone pauses between 11 and 35 units. *)
Theorem getID_bounded {C} {T : Transport C} (c : C) (reqMode : Z) :
  11 <= pause_total (evs (requestCard reqMode c)) <= 35
  /\ 11 <= pause_total (evs (getID c)) <= 45
  /\ (4 <= spi_reads (evs (getID c)) <= 36)%nat.
Proof.
  split.
  - destruct (requestCard_cost reqMode c) as (n & Hn & -> & _). lia.
  - destruct (requestCard_cost PICC_REQIDL c) as (n & Hn & Hp & Hr).
    destruct (Z.eq_dec (res (requestCard PICC_REQIDL c)) 1) as [E | E].
    + destruct (getID_present c E) as [_ ->].
      destruct (anticollision_cost (dev (requestCard PICC_REQIDL c))) as [Hp' Hr'].
      rewrite pause_total_app, spi_reads_app, Hp, Hr, Hp'. lia.
    + destruct (getID_absent c E) as (_ & -> & _). rewrite Hp, Hr. lia.
Qed.

(** X8: [anticollision] never reads ComIrqReg and takes one pause of 10
    units, no more: the FIFO level is read after that fixed delay,
    without waiting for the receive interrupt as the presence poll
    does. *)
Theorem anticollision_fixed_delay {C} {T : Transport C} (c : C) :
  reg_reads ComIrqReg (evs (anticollision c)) = []
  /\ pause_total (evs (anticollision c)) = 10.
Proof.
  split.
  - destruct (anticollision_reads c) as (lvl & bs & _ & _ & H & _). exact H.
  - apply anticollision_cost.
Qed.

(** ** The UID string determines the bytes *)

Lemma hex2_digits_all_bytes :
  forallb (fun b =>
             match hex_value (upper_hex_digit (b / 16)),
                   hex_value (upper_hex_digit (b mod 16)) with
             | Some h, Some l => (h =? b / 16) && (l =? b mod 16)
             | _, _ => false
             end) all_bytes = true.
Proof. vm_compute. reflexivity. Qed.

Lemma hex2_digits b :
  is_byte b ->
  hex_value (upper_hex_digit (b / 16)) = Some (b / 16)
  /\ hex_value (upper_hex_digit (b mod 16)) = Some (b mod 16).
Proof.
  intros Hb.
  pose proof (proj1 (forallb_forall _ _) hex2_digits_all_bytes b
                (all_bytes_complete b Hb)) as H.
  cbv beta in H.
  destruct (hex_value (upper_hex_digit (b / 16))) as [h |]; [| discriminate H].
  destruct (hex_value (upper_hex_digit (b mod 16))) as [l |]; [| discriminate H].
  apply andb_prop in H as [Hh Hl].
  apply Z.eqb_eq in Hh, Hl. now subst.
Qed.

Lemma parse_hex_uid bs : Forall is_byte bs -> parse_uid (hex_uid bs) = Some bs.
Proof.
  induction 1 as [| b bs Hb _ IH]; [reflexivity |].
  rewrite hex_uid_cons. cbn [parse_uid].
  destruct (hex2_digits b Hb) as [-> ->]. rewrite IH.
  do 2 f_equal. pose proof (Z.div_mod b 16). lia.
Qed.

(** X9: the string [anticollision] builds from the bytes it read can be
    read back: parsing it two hexadecimal digits at a time gives the
    bytes again, so two different byte sequences never give the same UID
    string. *)
Theorem formatUid_round_trip (bytes bytes' : list Z) :
  Forall is_byte bytes -> Forall is_byte bytes' ->
  parse_uid (formatUid bytes EmptyString) = Some bytes
  /\ (formatUid bytes EmptyString = formatUid bytes' EmptyString -> bytes = bytes').
Proof.
  intros Hb Hb'.
  assert (Hparse : forall l, Forall is_byte l ->
                             parse_uid (formatUid l EmptyString) = Some l).
  { intros l Hl. rewrite formatUid_hex_uid by exact Hl. cbn [append].
    now apply parse_hex_uid. }
  split; [now apply Hparse |].
  intros E. apply Hparse in Hb, Hb'. rewrite E in Hb. congruence.
Qed.

Lemma formatUid_round_trip_witness :
  parse_uid (formatUid [0x04; 0xAA; 0xBB; 0xCC; 0xDD] EmptyString)
  = Some [0x04; 0xAA; 0xBB; 0xCC; 0xDD].
Proof.
  apply (formatUid_round_trip [0x04; 0xAA; 0xBB; 0xCC; 0xDD] [0; 0]);
    repeat constructor; unfold is_byte; lia.
Defined.

(** ** [Init] *)

Lemma res_lift {C A} (m : M C A) (b : Board C) : res (lift m b) = res (m (chip b)).
Proof. reflexivity. Qed.
Lemma evs_lift {C A} (m : M C A) (b : Board C) : evs (lift m b) = evs (m (chip b)).
Proof. reflexivity. Qed.
Lemma dev_lift {C A} (m : M C A) (b : Board C) :
  dev (lift m b) = with_chip b (dev (m (chip b))).
Proof. reflexivity. Qed.

Lemma regfile_resetModule fuel (rf : RegFile) :
  res (resetModule (S fuel) rf) = Some tt
  /\ dev (resetModule (S fuel) rf) = mkRegFile (store (regs rf) 0x01 0x0F) Deselected.
Proof.
  rewrite resetModule_res, resetModule_dev, resetWait_res, resetWait_dev.
  unfold afterSoftReset. rewrite regfile_writeReg.
  cbn [pause dev on_pause RegFile_Transport].
  destruct (regfile_readReg CommandReg
              (mkRegFile (store (regs rf) (CommandReg mod 64) PCD_SOFTRESET) Deselected))
    as [-> ->].
  cbn [regs]. rewrite store_same. split; reflexivity.
Qed.

Lemma board_resetModule fuel (b : Board RegFile) :
  res (resetModule (S fuel) b) = Some tt
  /\ dev (resetModule (S fuel) b) =
       with_chip b (mkRegFile (store (regs (chip b)) 0x01 0x0F) Deselected).
Proof.
  rewrite resetModule_lift, res_lift, dev_lift.
  destruct (regfile_resetModule fuel (chip b)) as [-> ->]. split; reflexivity.
Qed.

Lemma board_writeReg a v (b : Board RegFile) :
  dev (writeReg a v b) =
  with_chip b (mkRegFile (store (regs (chip b)) (a mod 64) v) Deselected).
Proof. rewrite writeReg_lift, dev_lift, regfile_writeReg. reflexivity. Qed.

Lemma afterSetup_regfile (b : Board RegFile) :
  afterSetup b =
  mkBoard (mkRegFile (regs (chip b)) Deselected) (Some (MOSI, MISO, SCK))
    (Some 1000000) (serial_out b).
Proof. reflexivity. Qed.

Lemma Init_regfile fuel (b : Board RegFile) :
  res (Init (S fuel) b) = Some tt
  /\ dev (Init (S fuel) b) =
       mkBoard (dev (antennaOn (mkRegFile (configured (regs (chip b))) Deselected)))
         (Some (MOSI, MISO, SCK)) (Some 1000000) (serial_out b).
Proof.
  rewrite Init_res, Init_dev.
  destruct (board_resetModule fuel (afterSetup b)) as [-> ->].
  split; [reflexivity |].
  unfold afterTimers. rewrite !board_writeReg, antennaOn_lift, dev_lift.
  rewrite afterSetup_regfile. reflexivity.
Qed.

Lemma configured_values f :
  configured f 0x01 = 0x0F /\ configured f 0x2A = 0x80 /\ configured f 0x2B = 0xA9
  /\ configured f 0x2C = 0x03 /\ configured f 0x2D = 0xE8 /\ configured f 0x11 = 0x3D
  /\ configured f 0x14 = f 0x14.
Proof. repeat split. Qed.

Lemma configured_elsewhere f r :
  ~ In r [0x01; 0x2A; 0x2B; 0x2C; 0x2D; 0x11] -> configured f r = f r.
Proof.
  intros Hr. unfold configured, store.
  repeat match goal with
         | |- context [r =? ?a] =>
             destruct (Z.eqb_spec r a) as [-> | _]; [exfalso; apply Hr; cbn; tauto |]
         end.
  reflexivity.
Qed.

Lemma configured_fixed h :
  h 0x01 = 0x0F -> h 0x2A = 0x80 -> h 0x2B = 0xA9 -> h 0x2C = 0x03 ->
  h 0x2D = 0xE8 -> h 0x11 = 0x3D -> forall r, configured h r = h r.
Proof.
  intros H1 H2 H3 H4 H5 H6 r. unfold configured, store.
  repeat match goal with
         | |- context [r =? ?a] =>
             destruct (Z.eqb_spec r a) as [-> | _]; [symmetry; assumption |]
         end.
  reflexivity.
Qed.

(** the register file [Init] leaves *)
Lemma Init_regs fuel (b : Board RegFile) :
  regs (chip (dev (Init (S fuel) b))) =
  if Z.land (regs (chip b) 0x14) 3 =? 3
  then configured (regs (chip b))
  else store (configured (regs (chip b))) 0x14 (js_or (regs (chip b) 0x14) 3).
Proof.
  destruct (Init_regfile fuel b) as [_ ->]. cbn [chip].
  destruct (antennaOn_regfile (mkRegFile (configured (regs (chip b))) Deselected)) as [-> _].
  cbn [regs]. destruct (configured_values (regs (chip b))) as (_ & _ & _ & _ & _ & _ & ->).
  destruct (Z.land (regs (chip b) 0x14) 3 =? 3); reflexivity.
Qed.

(** X10: [Init] returns exactly when its reset wait does: with a budget
    of polls, when one of them reads bit 4 of CommandReg clear.  While it
    has not returned, the SPI set-up, the two pin writes and the reset
    are all that happened: no timer or mode register is written and the
    antenna is not touched.  Against a chip whose polls all read bit 4
    set, no budget lets [Init] return. *)
Theorem Init_waits_for_reset {C} {T : Transport C} (b : Board C) :
  (forall fuel,
      res (Init fuel b) = Some tt <->
      exists k, (k < fuel)%nat /\ Z.testbit (resetPoll (afterSetup b) k) 4 = false)
  /\ (forall fuel,
        res (Init fuel b) = None ->
        evs (Init fuel b) =
          [EvPin NSS 1; EvPin RST 1] ++ evs (resetModule fuel (afterSetup b)))
  /\ ((forall k, Z.testbit (resetPoll (afterSetup b) k) 4 = true) ->
      forall fuel, res (Init fuel b) = None).
Proof.
  assert (Hret : forall fuel,
             res (Init fuel b) = Some tt <->
             exists k, (k < fuel)%nat
                       /\ Z.testbit (resetPoll (afterSetup b) k) 4 = false).
  { intros fuel. rewrite Init_res, resetModule_res. apply resetWait_returns. }
  split; [exact Hret | split].
  - intros fuel Hnone. rewrite Init_evs. rewrite Init_res in Hnone.
    rewrite Hnone, app_nil_r. reflexivity.
  - intros Hbusy fuel.
    destruct (res (Init fuel b)) as [[] |] eqn:E; [| reflexivity].
    apply Hret in E as (k & _ & Hk). rewrite Hbusy in Hk. discriminate Hk.
Qed.

Lemma board_script_afterPolls k (b : Board Script) :
  replies (chip (afterPolls k b)) = replies (chip b).
Proof.
  revert b. induction k as [| k IH]; intros b; [reflexivity |].
  cbn [afterPolls]. rewrite IH, readReg_dev. reflexivity.
Qed.

Lemma board_script_afterSoftReset (b : Board Script) :
  replies (chip (afterSoftReset b)) = replies (chip b).
Proof. unfold afterSoftReset. rewrite writeReg_dev. reflexivity. Qed.

Lemma Init_waits_for_reset_witness :
  (res (Init 1 (fresh_board (fun _ => 0))) = Some tt)
  /\ (forall fuel, res (Init fuel dead_board) = None)
  /\ evs (Init 2 dead_board) =
       [EvPin NSS 1; EvPin RST 1] ++ evs (resetModule 2 (afterSetup dead_board)).
Proof.
  assert (Hdead : forall fuel, res (Init fuel dead_board) = None).
  { apply (Init_waits_for_reset dead_board).
    intros k. unfold resetPoll. rewrite readReg_res.
    cbn [on_pin on_spiWrite on_spiRead Board_Transport Script_Transport fst chip with_chip].
    rewrite board_script_afterPolls, board_script_afterSoftReset. reflexivity. }
  split; [| split; [exact Hdead |]].
  - apply (Init_waits_for_reset (fresh_board (fun _ => 0))). exists 0%nat.
    split; [lia | vm_compute; reflexivity].
  - apply (Init_waits_for_reset dead_board). apply Hdead.
Defined.

(** X11: on a board wired to a register file, [Init] with a budget of at
    least one poll returns, with the SPI pins set to C14, C15, C13 and the
    frequency to 1000000, nothing written on the serial line, CommandReg
    holding SoftReset, the four timer registers and ModeReg holding 0x80,
    0xA9, 0x03, 0xE8 and 0x3D, both antenna bits of TxControlReg set, and
    every other register as it was. *)
Theorem Init_configures (b : Board RegFile) (fuel : nat) :
  res (Init (S fuel) b) = Some tt
  /\ spi_pins (dev (Init (S fuel) b)) = Some (C14, C15, C13)
  /\ spi_frequency (dev (Init (S fuel) b)) = Some 1000000
  /\ serial_out (dev (Init (S fuel) b)) = serial_out b
  /\ map (regs (chip (dev (Init (S fuel) b)))) [0x01; 0x2A; 0x2B; 0x2C; 0x2D; 0x11]
     = [0x0F; 0x80; 0xA9; 0x03; 0xE8; 0x3D]
  /\ Z.land (regs (chip (dev (Init (S fuel) b))) 0x14) 3 = 3
  /\ (forall r, ~ In r [0x01; 0x2A; 0x2B; 0x2C; 0x2D; 0x11; 0x14] ->
        regs (chip (dev (Init (S fuel) b))) r = regs (chip b) r).
Proof.
  rewrite Init_regs. destruct (Init_regfile fuel b) as [-> ->].
  cbn [spi_pins spi_frequency serial_out].
  split; [reflexivity |]. split; [reflexivity |]. split; [reflexivity |].
  split; [reflexivity |].
  destruct (Z.eqb_spec (Z.land (regs (chip b) 0x14) 3) 3) as [E | E].
  - split; [reflexivity |]. split.
    + destruct (configured_values (regs (chip b))) as (_ & _ & _ & _ & _ & _ & ->).
      exact E.
    + intros r Hr. apply configured_elsewhere. cbn in *. tauto.
  - split; [reflexivity |]. split.
    + rewrite store_same. apply antenna_bits_set. exact E.
    + intros r Hr. unfold store at 1.
      destruct (Z.eqb_spec r 0x14) as [-> | _]; [exfalso; apply Hr; cbn; tauto |].
      apply configured_elsewhere. cbn in *. tauto.
Qed.

Lemma Init_configures_witness :
  regs (chip (dev (Init 1 (fresh_board (fun r => r))))) 0x09 = 0x09.
Proof.
  apply (Init_configures (fresh_board (fun r => r)) 0).
  cbn. lia.
Defined.

(** X12: on a board wired to a register file, running [Init] a second
    time returns again and leaves every register, and the SPI settings,
    as the first run left them. *)
Theorem Init_twice (b : Board RegFile) (fuel fuel' : nat) (r : Z) :
  res (Init (S fuel') (dev (Init (S fuel) b))) = Some tt
  /\ regs (chip (dev (Init (S fuel') (dev (Init (S fuel) b))))) r =
     regs (chip (dev (Init (S fuel) b))) r
  /\ spi_pins (dev (Init (S fuel') (dev (Init (S fuel) b)))) =
     spi_pins (dev (Init (S fuel) b))
  /\ spi_frequency (dev (Init (S fuel') (dev (Init (S fuel) b)))) =
     spi_frequency (dev (Init (S fuel) b)).
Proof.
  split; [apply Init_regfile |].
  split; [| destruct (Init_regfile fuel' (dev (Init (S fuel) b))) as [_ ->];
            destruct (Init_regfile fuel b) as [_ ->]; split; reflexivity].
  rewrite (Init_regs fuel'). set (g := regs (chip (dev (Init (S fuel) b)))).
  assert (Hg : g 0x01 = 0x0F /\ g 0x2A = 0x80 /\ g 0x2B = 0xA9 /\ g 0x2C = 0x03
               /\ g 0x2D = 0xE8 /\ g 0x11 = 0x3D /\ Z.land (g 0x14) 3 = 3).
  { subst g. rewrite Init_regs.
    destruct (Z.eqb_spec (Z.land (regs (chip b) 0x14) 3) 3) as [E | E].
    - repeat split. exact E.
    - repeat split. rewrite store_same. apply antenna_bits_set. exact E. }
  destruct Hg as (H1 & H2 & H3 & H4 & H5 & H6 & H7).
  rewrite H7, Z.eqb_refl. now apply configured_fixed.
Qed.

(** ** The bit framing the anti-collision frame is sent with *)

Lemma testbit_128 i : 0 <= i -> Z.testbit 0x80 i = (i =? 7).
Proof.
  intros Hi. change 0x80 with (2 ^ 7). rewrite Z.pow2_bits_eqb by lia.
  apply Z.eqb_sym.
Qed.

(** X14: [anticollision] never sets the bit framing itself: on the
    register file it leaves BitFramingReg as it found it, bit 7 (StartSend)
    cleared.  [requestCard] leaves 0x07 there, the short-frame setting of
    the request, so an [anticollision] that follows it starts its
    transmission by writing 0x87, with that 7-bit setting still in
    place. *)
Theorem anticollision_keeps_framing (rf : RegFile) (reqMode : Z) :
  (forall i, 0 <= i < 32 ->
     Z.testbit (regs (dev (anticollision rf)) 0x0D) i =
     Z.testbit (regs rf 0x0D) i && negb (i =? 7))
  /\ regs (dev (requestCard reqMode rf)) 0x0D = 0x07
  /\ evs (anticollision (dev (requestCard reqMode rf))) =
       anticoll_exchange 0x07 0x87 ++ read_transfer FIFOLevelReg 0x80.
Proof.
  split; [| split].
  - intros i Hi. destruct (regfile_anticollision rf) as (_ & _ & ->).
    rewrite js_and_low_bits, js_or_low_bits, js_not_low_bits, testbit_128 by lia.
    now destruct (Z.testbit (regs rf 13) i), (i =? 7).
  - apply regfile_requestCard.
  - destruct (regfile_anticollision (dev (requestCard reqMode rf))) as (-> & _).
    rewrite regfile_requestCard.
    replace (js_or 7 128) with 0x87 by (vm_compute; reflexivity). reflexivity.
Qed.

Lemma anticollision_keeps_framing_witness :
  Z.testbit (regs (dev (anticollision framing_file)) 0x0D) 6 =
  Z.testbit (regs framing_file 0x0D) 6 && negb (6 =? 7).
Proof.
  apply (anticollision_keeps_framing framing_file 0). lia.
Defined.

(** ** Values that are not bytes *)

Lemma toUpperCase_length s : String.length (toUpperCase s) = String.length s.
Proof. induction s as [| c s IH]; cbn; [reflexivity | now rewrite IH]. Qed.

Lemma hex_digits_grows fuel n acc :
  (String.length acc <= String.length (hex_digits fuel n acc))%nat.
Proof.
  revert n acc. induction fuel as [| fuel IH]; intros n acc; cbn [hex_digits]; [lia |].
  destruct (n / 16 =? 0); [cbn [String.length]; lia |].
  specialize (IH (n / 16) (String (hex_char (n mod 16)) acc)).
  cbn [String.length] in IH. lia.
Qed.

Lemma hex_digits_three fuel n :
  256 <= n -> (3 <= fuel)%nat ->
  (3 <= String.length (hex_digits fuel n EmptyString))%nat.
Proof.
  intros Hn Hf. destruct fuel as [| [| [| fuel]]]; try lia.
  assert (H1 : (n / 16 =? 0) = false).
  { apply Z.eqb_neq. pose proof (Z.div_le_mono 256 n 16 ltac:(lia) Hn) as H.
    change (256 / 16) with 16 in H. lia. }
  assert (H2 : (n / 16 / 16 =? 0) = false).
  { apply Z.eqb_neq. pose proof (Z.div_le_mono 256 n 16 ltac:(lia) Hn) as H.
    change (256 / 16) with 16 in H.
    pose proof (Z.div_le_mono 16 (n / 16) 16 ltac:(lia) H) as H'.
    change (16 / 16) with 1 in H'. lia. }
  cbn [hex_digits]. rewrite H1, H2.
  destruct (n / 16 / 16 / 16 =? 0); [reflexivity |].
  match goal with |- (3 <= String.length (hex_digits ?f ?m ?acc))%nat =>
    pose proof (hex_digits_grows f m acc) as Hg end.
  cbn [String.length] in Hg. lia.
Qed.

(** X15: the formatting of a UID element pads to two characters but never
    cuts: a value of 256 or more comes out with at least three characters
    and a negative one with a leading minus sign, so the two-characters-
    per-element shape of the UID string rests on the bus handing back
    bytes. *)
Theorem hexByte_out_of_range (n : Z) :
  (256 <= n -> (3 <= String.length (hexByte n))%nat)
  /\ (n < 0 -> exists rest, hexByte n = String "-"%char rest).
Proof.
  split.
  - intros Hn. unfold hexByte. rewrite toUpperCase_length.
    assert (H3 : (3 <= String.length (toString16 n))%nat).
    { unfold toString16. destruct (Z.ltb_spec n 0) as [Hneg | _]; [lia |].
      apply hex_digits_three; [exact Hn |]. unfold hex_fuel.
      pose proof (Z.log2_le_mono 256 n Hn) as Hl.
      change (Z.log2 256) with 8 in Hl. lia. }
    destruct (String.length (toString16 n) <? 2)%nat; cbn [String.length]; lia.
  - intros Hn. unfold hexByte, toString16.
    apply Z.ltb_lt in Hn. rewrite Hn.
    set (digits := hex_digits (hex_fuel (- n)) (- n) EmptyString).
    assert (Hlen : (1 <= String.length digits)%nat).
    { subst digits. unfold hex_fuel. cbn [hex_digits].
      destruct (- n / 16 =? 0); [cbn [String.length]; lia |].
      match goal with |- (1 <= String.length (hex_digits ?f ?m ?acc))%nat =>
        pose proof (hex_digits_grows f m acc) as Hg end.
      cbn [String.length] in Hg. lia. }
    cbn [String.length].
    destruct (Nat.ltb_spec (S (String.length digits)) 2) as [Hlt | _]; [lia |].
    cbn [toUpperCase]. eexists. reflexivity.
Qed.

Lemma hexByte_out_of_range_witness :
  (3 <= String.length (hexByte 256))%nat
  /\ exists rest, hexByte (-1) = String "-"%char rest.
Proof.
  split.
  - apply (hexByte_out_of_range 256). lia.
  - apply (hexByte_out_of_range (-1)). lia.
Defined.
